(** * Mobile audio playback: the [mobileAudio] store and [MobileAudioPlayer]

    A shallow embedding of the single-flight playback coordinator of the
    mobile frontend:

    - [$lib/stores/mobileAudio] (the store module: [currentlyPlayingId],
      [isPlaying], the module variable [audioElement] and the functions
      [registerAudioElement], [playDetection], [stopPlayback],
      [isDetectionPlaying]);
    - [MobileAudioPlayer.svelte] (the hidden component that owns the
      [<audio>] element: [handleCanPlay], [handleEnded], [handleError], its
      two effects and its [onDestroy] hook).

    The browser is the environment.  What the code uses of it is modelled
    explicitly: audio elements live in a heap indexed by references, so that
    the store's [audioElement] and the component's [audioRef] may alias one
    element; [play()] returns a promise whose rejection is delivered later,
    as a step of its own, to the [.catch] handler attached at the call site;
    calling a method on [null] throws. *)

From Stdlib Require Import ZArith Ascii String Qcanon.
From stdpp Require Import base option list gmap strings pretty.

Open Scope Z_scope.
Open Scope string_scope.
Open Scope list_scope.

(** ** The browser's audio element *)

(** [MediaError]: the [code] attribute is a number; the four constants are
    those of the HTML standard's [MediaError] interface. *)
Record MediaError := mkMediaError { code : Z }.

Definition MEDIA_ERR_ABORTED : Z := 1.
Definition MEDIA_ERR_NETWORK : Z := 2.
Definition MEDIA_ERR_DECODE : Z := 3.
Definition MEDIA_ERR_SRC_NOT_SUPPORTED : Z := 4.

(** The attributes of [HTMLAudioElement] that the code reads or writes.
    [allowedToPlay] is the user agent's decision on a [play()] request
    (autoplay policy, usable source): when it is [false] the request leaves
    [paused] as it is. *)
Record HTMLAudioElement := mkAudio {
  paused : bool;
  currentTime : Z;
  error : option MediaError;
  allowedToPlay : bool
}.

(** A newly created element. *)
Definition freshAudio : HTMLAudioElement :=
  {| paused := true; currentTime := 0; error := None; allowedToPlay := true |}.

(** The reason a [play()] promise is rejected with. *)
Inductive DOMException := NotAllowedError | NotSupportedError | AbortError.

(** The two [.catch] closures of the code, by the function that attaches
    them. *)
Inductive CatchHandler :=
| ResumeCatch   (* playDetection: err => logger.error('Failed to resume playback', err) *)
| StartCatch.   (* handleCanPlay: err => { logger.error(..); _error = ..; onError?.(..) } *)

(** ** Observable actions *)

Inductive LogLevel := Debug | Error.

Inductive Event :=
| EvLog (logger : string) (level : LogLevel) (msg : string)
| EvPlay (r : nat)
| EvPause (r : nat)
| EvSeek (r : nat) (t : Z)
| EvLoad (r : nat)
| EvOnError (msg : string)
| EvOnPlayEnd.

(** ** State *)

(** The store module: two writables and the module-scoped element
    reference.  Detection ids are database keys, modelled as integers. *)
Record Store := mkStore {
  currentlyPlayingId : option Z;
  isPlaying : bool;
  audioElement : option nat
}.

(** The component instance's own state. *)
Record Player := mkPlayer {
  audioRef : option nat;
  _isLoading : bool;
  _error : option string
}.

Record World := mkWorld {
  store : Store;
  player : Player;
  elements : gmap nat HTMLAudioElement;
  promises : list CatchHandler;
  trace : list Event
}.

Definition initialWorld : World :=
  {| store := {| currentlyPlayingId := None; isPlaying := false; audioElement := None |};
     player := {| audioRef := None; _isLoading := false; _error := None |};
     elements := ∅;
     promises := [];
     trace := [] |}.

(** Every reference denotes an element; one that was never touched is in
    its initial state. *)
Definition deref (els : gmap nat HTMLAudioElement) (r : nat) : HTMLAudioElement :=
  default freshAudio (els !! r).

Definition with_store (f : Store -> Store) (w : World) : World :=
  {| store := f (store w); player := player w; elements := elements w;
     promises := promises w; trace := trace w |}.

Definition with_player (f : Player -> Player) (w : World) : World :=
  {| store := store w; player := f (player w); elements := elements w;
     promises := promises w; trace := trace w |}.

Definition with_element (r : nat) (f : HTMLAudioElement -> HTMLAudioElement)
    (w : World) : World :=
  {| store := store w; player := player w;
     elements := <[r := f (deref (elements w) r)]> (elements w);
     promises := promises w; trace := trace w |}.

Definition with_promises (f : list CatchHandler -> list CatchHandler)
    (w : World) : World :=
  {| store := store w; player := player w; elements := elements w;
     promises := f (promises w); trace := trace w |}.

Definition record_event (e : Event) (w : World) : World :=
  {| store := store w; player := player w; elements := elements w;
     promises := promises w; trace := trace w ++ [e] |}.

(** ** Computations: state and exceptions *)

Inductive JSError :=
| TypeError (msg : string)
| Raised (msg : string).

Inductive Outcome (A : Type) :=
| Normal (a : A) (w : World)
| Thrown (e : JSError) (w : World).
Arguments Normal {A} a w.
Arguments Thrown {A} e w.

Definition M (A : Type) : Type := World -> Outcome A.

Definition ret {A} (a : A) : M A := fun w => Normal a w.

Definition bind {A B} (c : M A) (k : A -> M B) : M B :=
  fun w => match c w with
           | Normal a w' => k a w'
           | Thrown e w' => Thrown e w'
           end.

Definition throw {A} (e : JSError) : M A := fun w => Thrown e w.

Notation "x <- c ;; k" := (bind c (fun x => k))
  (at level 100, c at next level, right associativity).
Notation "c ;; k" := (bind c (fun _ => k))
  (at level 100, right associativity).

(** The state an outcome leaves behind, whether it returned or threw. *)
Definition world_of {A} (o : Outcome A) : World :=
  match o with Normal _ w => w | Thrown _ w => w end.

Definition returns {A} (c : M A) (w : World) : Prop :=
  ∃ a w', c w = Normal a w'.

Definition gets {A} (f : World -> A) : M A := fun w => Normal (f w) w.
Definition modify (f : World -> World) : M unit := fun w => Normal tt (f w).

(** ** Primitives *)

(** [logger.debug] / [logger.error] of [getLogger(name)]: logging is
    observable and changes nothing else. *)
Definition logger_debug (name msg : string) : M unit :=
  modify (record_event (EvLog name Debug msg)).
Definition logger_error (name msg : string) : M unit :=
  modify (record_event (EvLog name Error msg)).

(** Truthiness of a nullable object reference. *)
Definition truthy {A} (o : option A) : bool :=
  match o with Some _ => true | None => false end.

(** [get(currentlyPlayingId)], [$currentlyPlayingId] and the two [set]s.
    The only subscribers of the two writables are the components' own
    [$store] bindings, so a [set] is an assignment. *)
Definition get_currentlyPlayingId : M (option Z) :=
  gets (fun w => currentlyPlayingId (store w)).
Definition currentlyPlayingId_set (v : option Z) : M unit :=
  modify (with_store (fun s =>
    {| currentlyPlayingId := v; isPlaying := isPlaying s;
       audioElement := audioElement s |})).
Definition put_isPlaying (b : bool) (w : World) : World :=
  with_store (fun s =>
    {| currentlyPlayingId := currentlyPlayingId s; isPlaying := b;
       audioElement := audioElement s |}) w.
Definition isPlaying_set (b : bool) : M unit :=
  modify (put_isPlaying b).

(** The module variable [audioElement] and the component's [audioRef],
    [_isLoading], [_error]. *)
Definition get_audioElement : M (option nat) :=
  gets (fun w => audioElement (store w)).
Definition get_audioRef : M (option nat) :=
  gets (fun w => audioRef (player w)).
Definition audioRef_set (o : option nat) : M unit :=
  modify (with_player (fun p =>
    {| audioRef := o; _isLoading := _isLoading p; _error := _error p |})).
Definition _isLoading_set (b : bool) : M unit :=
  modify (with_player (fun p =>
    {| audioRef := audioRef p; _isLoading := b; _error := _error p |})).
Definition _error_set (e : option string) : M unit :=
  modify (with_player (fun p =>
    {| audioRef := audioRef p; _isLoading := _isLoading p; _error := e |})).

(** Member access on [null] throws. *)
Definition null_access {A} : M A :=
  throw (TypeError "Cannot read properties of null").

(** [el.paused] *)
Definition el_paused (el : option nat) : M bool :=
  match el with
  | None => null_access
  | Some r => gets (fun w => paused (deref (elements w) r))
  end.

(** [el.pause()] *)
Definition el_pause (el : option nat) : M unit :=
  match el with
  | None => null_access
  | Some r =>
      modify (with_element r (fun a =>
        {| paused := true; currentTime := currentTime a; error := error a;
           allowedToPlay := allowedToPlay a |})) ;;
      modify (record_event (EvPause r))
  end.

(** [el.currentTime = t] *)
Definition el_set_currentTime (el : option nat) (t : Z) : M unit :=
  match el with
  | None => null_access
  | Some r =>
      modify (with_element r (fun a =>
        {| paused := paused a; currentTime := t; error := error a;
           allowedToPlay := allowedToPlay a |})) ;;
      modify (record_event (EvSeek r t))
  end.

(** [el.load()]: the media element load algorithm resets the element. *)
Definition el_load (el : option nat) : M unit :=
  match el with
  | None => null_access
  | Some r =>
      modify (with_element r (fun a =>
        {| paused := true; currentTime := 0; error := None;
           allowedToPlay := allowedToPlay a |})) ;;
      modify (record_event (EvLoad r))
  end.

(** [el.play().catch(h)]: the request takes effect on [paused] when the
    user agent allows it; the promise stays pending with [h] attached. *)
Definition el_play_catch (el : option nat) (h : CatchHandler) : M unit :=
  match el with
  | None => null_access
  | Some r =>
      modify (with_element r (fun a =>
        {| paused := if allowedToPlay a then false else paused a;
           currentTime := currentTime a; error := error a;
           allowedToPlay := allowedToPlay a |})) ;;
      modify (record_event (EvPlay r)) ;;
      modify (with_promises (fun ps => ps ++ [h]))
  end.

(** [el?.error] *)
Definition el_error_opt (el : option nat) : M (option MediaError) :=
  match el with
  | None => ret None
  | Some r => gets (fun w => error (deref (elements w) r))
  end.

(** ** The store module [mobileAudio] *)

Definition registerAudioElement (element : option nat) : M unit :=
  modify (with_store (fun s =>
    {| currentlyPlayingId := currentlyPlayingId s; isPlaying := isPlaying s;
       audioElement := element |})).

Definition playDetection (id : Z) : M unit :=
  current <- get_currentlyPlayingId ;;
  el <- get_audioElement ;;
  if bool_decide (current = Some id) && truthy el then
    (p <- el_paused el ;;
     if p then
       (el_play_catch el ResumeCatch ;;
        isPlaying_set true)
     else
       (el_pause el ;;
        isPlaying_set false))
  else
    (logger_debug "mobile-audio" "Playing detection" ;;
     currentlyPlayingId_set (Some id) ;;
     isPlaying_set true).

(** The closure given to [.catch] in [playDetection]. *)
Definition playDetection_catch (err : DOMException) : M unit :=
  logger_error "mobile-audio" "Failed to resume playback".

Definition stopPlayback : M unit :=
  logger_debug "mobile-audio" "Stopping playback" ;;
  el <- get_audioElement ;;
  (if truthy el then
     (el_pause el ;;
      el_set_currentTime el 0)
   else ret tt) ;;
  currentlyPlayingId_set None ;;
  isPlaying_set false.

Definition isDetectionPlaying (id : Z) : M bool :=
  current <- get_currentlyPlayingId ;;
  ret (bool_decide (current = Some id)).

(** ** The component [MobileAudioPlayer] *)

Record Props := mkProps {
  onPlayEnd : option (M unit);
  onError : option (string -> M unit)
}.

(** [onPlayEnd?.()] and [onError?.(msg)]; the invocation is observable. *)
Definition call_onPlayEnd (props : Props) : M unit :=
  match onPlayEnd props with
  | None => ret tt
  | Some f => modify (record_event EvOnPlayEnd) ;; f
  end.

Definition call_onError (props : Props) (msg : string) : M unit :=
  match onError props with
  | None => ret tt
  | Some f => modify (record_event (EvOnError msg)) ;; f msg
  end.

(** [$effect(() => { registerAudioElement(audioRef); })] *)
Definition effect_register : M unit :=
  r <- get_audioRef ;;
  registerAudioElement r.

(** The second effect: reload when a detection is selected. *)
Definition effect_load : M unit :=
  sel <- get_currentlyPlayingId ;;
  r <- get_audioRef ;;
  if bool_decide (sel ≠ None) && truthy r then
    (_isLoading_set true ;;
     _error_set None ;;
     el_load r)
  else ret tt.

Definition handleCanPlay : M unit :=
  _isLoading_set false ;;
  r <- get_audioRef ;;
  sel <- get_currentlyPlayingId ;;
  if truthy r && bool_decide (sel ≠ None) then
    el_play_catch r StartCatch
  else ret tt.

(** The closure given to [.catch] in [handleCanPlay]. *)
Definition handleCanPlay_catch (props : Props) (err : DOMException) : M unit :=
  logger_error "mobile-audio-player" "Failed to start playback" ;;
  _error_set (Some "Failed to play audio") ;;
  call_onError props "Failed to play audio".

Definition handleEnded (props : Props) : M unit :=
  logger_debug "mobile-audio-player" "Playback ended" ;;
  stopPlayback ;;
  call_onPlayEnd props.

(** The [switch] of [handleError] over [audioError.code], with the initial
    value of [errorMsg] as its default. *)
Definition errorMessage (audioError : option MediaError) : string :=
  match audioError with
  | None => "Failed to load audio"
  | Some e =>
      if (code e =? MEDIA_ERR_ABORTED)%Z then "Playback aborted"
      else if (code e =? MEDIA_ERR_NETWORK)%Z then "Network error"
      else if (code e =? MEDIA_ERR_DECODE)%Z then "Audio format not supported"
      else if (code e =? MEDIA_ERR_SRC_NOT_SUPPORTED)%Z then "Audio not available"
      else "Failed to load audio"
  end.

Definition handleError (props : Props) : M unit :=
  r <- get_audioRef ;;
  audioError <- el_error_opt r ;;
  let errorMsg := errorMessage audioError in
  logger_error "mobile-audio-player" "Audio error" ;;
  _error_set (Some errorMsg) ;;
  _isLoading_set false ;;
  call_onError props errorMsg ;;
  stopPlayback.

Definition onDestroy : M unit :=
  registerAudioElement None.

(** ** Delivery of a settled [play()] promise *)

Definition run_catch (props : Props) (h : CatchHandler) (err : DOMException)
    : M unit :=
  match h with
  | ResumeCatch => playDetection_catch err
  | StartCatch => handleCanPlay_catch props err
  end.

(** The [i]-th pending promise settles: fulfilled ([None]) or rejected with
    [Some err], in which case its [.catch] closure runs. *)
Definition settle (props : Props) (i : nat) (res : option DOMException)
    : M unit :=
  ps <- gets promises ;;
  match ps !! i with
  | None => ret tt
  | Some h =>
      modify (with_promises (delete i)) ;;
      match res with
      | None => ret tt
      | Some err => run_catch props h err
      end
  end.

(** ** The transition system *)

(** What can happen to the page: calls into the store module by its
    consumers, DOM events on the audio element, Svelte running the
    component's effects and bindings, pending promises settling, and the
    user agent changing an element on its own (playback advancing, a load
    failing, the autoplay permission changing). *)
Inductive Action :=
| CallPlayDetection (id : Z)
| CallStopPlayback
| CallRegisterAudioElement (element : option nat)
| CallIsDetectionPlaying (id : Z)
| OnCanPlay
| OnEnded
| OnError
| RunEffectRegister
| RunEffectLoad
| RunOnDestroy
| BindThis (element : option nat)
| Settle (i : nat) (res : option DOMException)
| UserAgent (r : nat) (a : HTMLAudioElement).

Definition run (props : Props) (act : Action) : M unit :=
  match act with
  | CallPlayDetection id => playDetection id
  | CallStopPlayback => stopPlayback
  | CallRegisterAudioElement element => registerAudioElement element
  | CallIsDetectionPlaying id => isDetectionPlaying id ;; ret tt
  | OnCanPlay => handleCanPlay
  | OnEnded => handleEnded props
  | OnError => handleError props
  | RunEffectRegister => effect_register
  | RunEffectLoad => effect_load
  | RunOnDestroy => onDestroy
  | BindThis element => audioRef_set element
  | Settle i res => settle props i res
  | UserAgent r a => modify (with_element r (fun _ => a))
  end.

Definition step (props : Props) (act : Action) (w : World) : World :=
  world_of (run props act w).

Definition exec (props : Props) (acts : list Action) (w : World) : World :=
  foldl (fun w act => step props act w) w acts.

Inductive reachable (props : Props) : World -> Prop :=
| reachable_init : reachable props initialWorld
| reachable_step act w :
    reachable props w -> reachable props (step props act w).

(** The invariant of the data model: activity only with a selection. *)
Definition activity_implies_selection (w : World) : Prop :=
  isPlaying (store w) = true -> currentlyPlayingId (store w) ≠ None.

(** A parent's callbacks keep a property [P] of the state, however they
    end. *)
Definition callbacks_preserve (P : World -> Prop) (props : Props) : Prop :=
  (∀ f, onPlayEnd props = Some f -> ∀ w, P w -> P (world_of (f w))) ∧
  (∀ f, onError props = Some f -> ∀ msg w, P w -> P (world_of (f msg w))).

(** The component as the dashboard mounts it: [<MobileAudioPlayer />]. *)
Definition noCallbacks : Props := {| onPlayEnd := None; onError := None |}.

(** ** Scenarios *)

(** Svelte mounting the [<audio>] element [r] once a detection is selected:
    [bind:this], then the two effects. *)
Definition mount (r : nat) : list Action :=
  [BindThis (Some r); RunEffectRegister; RunEffectLoad].

(** Detection 42 selected, element 1 mounted and reloading. *)
Definition loading42 : World :=
  exec noCallbacks (CallPlayDetection 42 :: mount 1) initialWorld.

(** ... and rendering, after [canplay] and a fulfilled [play()]. *)
Definition rendering42 : World :=
  exec noCallbacks [OnCanPlay; Settle 0 None] loading42.

(** ... and paused again by a second tap on the same row. *)
Definition paused42 : World :=
  exec noCallbacks [CallPlayDetection 42] rendering42.

(** Detection 42 stopped by a consumer while element 1 is still mounted
    and registered. *)
Definition stopped42 : World :=
  exec noCallbacks [CallStopPlayback] rendering42.

(** Detection 42 selected and loaded in a page where the user agent does
    not let element 1 start (autoplay policy). *)
Definition blocked42 : World :=
  exec noCallbacks
    [UserAgent 1 {| paused := true; currentTime := 0; error := None;
                    allowedToPlay := false |}] loading42.

(** Detection 42 rendering when decoding fails. *)
Definition decodeError42 : World :=
  exec noCallbacks
    [UserAgent 1 {| paused := true; currentTime := 0;
                    error := Some {| code := MEDIA_ERR_DECODE |};
                    allowedToPlay := true |}] rendering42.

(** A parent that asks the store, from inside its callback, whether
    detection [id] is the selected one, and logs the answer. *)
Definition reportSelected (id : Z) : M unit :=
  b <- isDetectionPlaying id ;;
  logger_debug "parent" (if b then "selected" else "not selected").

Definition reportingParent (id : Z) : Props :=
  {| onPlayEnd := Some (reportSelected id);
     onError := Some (fun _ => reportSelected id) |}.

(** A parent whose error callback throws. *)
Definition throwingParent : Props :=
  {| onPlayEnd := None;
     onError := Some (fun _ => throw (Raised "onError failed")) |}.

(** ** Candidate statements *)

(** Three successive [playDetection id] give activity true, false, true
    with [id] selected throughout. *)
Definition toggles (id : Z) (w : World) : Prop :=
  ∃ w1 w2 w3,
    playDetection id w = Normal tt w1 ∧
    playDetection id w1 = Normal tt w2 ∧
    playDetection id w2 = Normal tt w3 ∧
    isPlaying (store w1) = true ∧
    isPlaying (store w2) = false ∧
    isPlaying (store w3) = true ∧
    currentlyPlayingId (store w1) = Some id ∧
    currentlyPlayingId (store w2) = Some id ∧
    currentlyPlayingId (store w3) = Some id.

(** A failed start, delivered after [handleCanPlay], leaves the store
    idle. *)
Definition start_failure_clears (props : Props) (err : DOMException)
    (w : World) : Prop :=
  ∃ w1 w2,
    handleCanPlay w = Normal tt w1 ∧
    settle props (length (promises w)) (Some err) w1 = Normal tt w2 ∧
    currentlyPlayingId (store w2) = None ∧
    isPlaying (store w2) = false.

(** A resource-load error, handled, leaves the store idle. *)
Definition load_error_ends_idle (props : Props) (w : World) : Prop :=
  currentlyPlayingId (store (world_of (handleError props w))) = None
  ∧ isPlaying (store (world_of (handleError props w))) = false.

(** ** Preservation *)

(** A computation keeps [P], whether it returns or throws. *)
Definition preserves {A} (P : World -> Prop) (c : M A) : Prop :=
  ∀ w, P w -> P (world_of (c w)).

(** The state in which [handleError] invokes the error callback. *)
Definition errorReported (msg : string) (w : World) : World :=
  {| store := store w;
     player := {| audioRef := audioRef (player w); _isLoading := false;
                  _error := Some msg |};
     elements := elements w;
     promises := promises w;
     trace := trace w ++ [EvLog "mobile-audio-player" Error "Audio error"] |}.

(** The state in which the [.catch] closure of [handleCanPlay] invokes the
    error callback. *)
Definition startFailureReported (w : World) : World :=
  {| store := store w;
     player := {| audioRef := audioRef (player w);
                  _isLoading := _isLoading (player w);
                  _error := Some "Failed to play audio" |};
     elements := elements w;
     promises := promises w;
     trace := trace w ++
       [EvLog "mobile-audio-player" Error "Failed to start playback"] |}.

(** ** Derived values and consumers of the store *)

(** [`${n}`] and [n.toString()] for an integer [n]: its decimal numeral. *)
Definition numberToString (n : Z) : string := pretty n.

(** The component's [audioUrl]: the clip of the selected detection, or the
    empty string. *)
Definition audioUrl (w : World) : string :=
  match currentlyPlayingId (store w) with
  | Some id => "/api/v2/audio/" +:+ numberToString id
  | None => ""
  end.

(** *** [DetectionRow.svelte] *)

Module DetectionRow.

(** [String.prototype.split] with a one-character separator. *)
Fixpoint split (sep : ascii) (s : string) : list string :=
  match s with
  | EmptyString => [EmptyString]
  | String c s' =>
      if Ascii.eqb c sep then EmptyString :: split sep s'
      else match split sep s' with
           | x :: xs => String c x :: xs
           | [] => [String c EmptyString]
           end
  end.

(** The result of [parseInt(s, 10)].  [NaN] when no digit follows the
    optional blanks and sign.  [Unmodelled] marks the inputs on which the
    integer model would not be exact: a byte outside ASCII, or a numeral
    above 2^53. *)
Inductive ParsedInt := NaN | Int (z : Z) | Unmodelled.

Definition isBlank (c : ascii) : bool :=
  let n := nat_of_ascii c in
  (n =? 32)%nat || ((9 <=? n)%nat && (n <=? 13)%nat).

Definition digitValue (c : ascii) : option Z :=
  let n := Z.of_nat (nat_of_ascii c) in
  if (48 <=? n)%Z && (n <=? 57)%Z then Some (n - 48) else None.

Fixpoint skipBlanks (s : string) : string :=
  match s with
  | String c s' => if isBlank c then skipBlanks s' else s
  | EmptyString => EmptyString
  end.

(** The value of the longest prefix of decimal digits, if there is one. *)
Fixpoint leadingDigits (s : string) (acc : option Z) : option Z :=
  match s with
  | String c s' =>
      match digitValue c with
      | Some d => leadingDigits s' (Some (10 * default 0 acc + d))
      | None => acc
      end
  | EmptyString => acc
  end.

Fixpoint allAscii (s : string) : bool :=
  match s with
  | String c s' => (nat_of_ascii c <? 128)%nat && allAscii s'
  | EmptyString => true
  end.

Definition parseInt10 (s : string) : ParsedInt :=
  if negb (allAscii s) then Unmodelled
  else
    let s1 := skipBlanks s in
    let signed :=
      match s1 with
      | String "-" r => (-1, r)
      | String "+" r => (1, r)
      | _ => (1, s1)
      end in
    match leadingDigits (snd signed) None with
    | None => NaN
    | Some v => if (v <=? 2 ^ 53)%Z then Int (fst signed * v) else Unmodelled
    end.

(** [formatTime]; [None] only where [parseInt10] is [Unmodelled].  A
    missing second field prints as "undefined"; with a [NaN] hour the
    comparison [hour >= 12] is false and [hour % 12 || 12] is 12. *)
Definition formatTime (time : string) : option string :=
  let parts := split ":" time in
  let hours := default EmptyString (head parts) in
  let minutes := default "undefined" (parts !! 1%nat) in
  match parseInt10 hours with
  | Unmodelled => None
  | NaN => Some ("12" +:+ ":" +:+ minutes +:+ " " +:+ "AM")
  | Int hour =>
      let ampm := if (12 <=? hour)%Z then "PM" else "AM" in
      let displayHour :=
        if (Z.rem hour 12 =? 0)%Z then 12 else Z.rem hour 12 in
      Some (numberToString displayHour +:+ ":" +:+ minutes +:+ " " +:+ ampm)
  end.

(** [spectrogramUrl] *)
Definition spectrogramUrl (id : Z) : string :=
  "/api/v2/spectrogram/" +:+ numberToString id.

(** A well-formed hour field: two decimal digits. *)
Definition twoDigits (h : nat) : string :=
  (if (h <? 10)%nat then "0" else "") +:+ pretty h.

(** The hour a 12-hour clock shows. *)
Definition clockHour (h : nat) : nat :=
  if (h mod 12 =? 0)%nat then 12%nat else (h mod 12)%nat.

End DetectionRow.

(** *** The dashboard page *)

Module Dashboard.

Record DashboardDetection := mkDetection {
  id : Z;
  commonName : string;
  scientificName : string;
  confidence : Qc;
  date : string;
  time : string;
  verified : option string
}.

Record SummaryData := mkSummary {
  summaryTotalDetections : Z;
  uniqueSpecies : nat;
  topSpecies : option string
}.

(** An entry of the daily species summary the server returns. *)
Record DailySpecies := mkDaily {
  common_name : string;
  count : Z
}.

Record DetectionsResponse := mkResponse {
  data : list DashboardDetection;
  total : Z
}.

(** The query of [GET /api/v2/detections]; the two numbers travel as their
    decimal numerals. *)
Record DetectionsRequest := mkRequest {
  start_date : string;
  end_date : string;
  numResults : nat;
  offset : nat
}.

(** What a [catch] clause receives. *)
Inductive ThrownValue :=
| ErrorObject (message : string)
| NonError.

(** How [await fetch(..)] followed by [await response.json()] ends: the
    request is rejected, or a response arrives whose body parses to a value
    or fails to. *)
Inductive Fetched (A : Type) :=
| FetchRejected (e : ThrownValue)
| FetchResponded (ok : bool) (statusText : string) (body : ThrownValue + A).
Arguments FetchRejected {A} e.
Arguments FetchResponded {A} ok statusText body.

Inductive LogEntry :=
| LogError (msg : string)
| LogInfo (msg : string).

Record State := mkState {
  summaryLoading : bool;
  summaryError : option string;
  summary : option SummaryData;
  detections : list DashboardDetection;
  totalDetections : Z;
  detectionsLoading : bool;
  loadingMore : bool;
  detectionsError : option string;
  expandedId : option Z;
  log : list LogEntry
}.

Definition PAGE_SIZE : nat := 20.

Definition initialState : State :=
  {| summaryLoading := true; summaryError := None; summary := None;
     detections := []; totalDetections := 0; detectionsLoading := true;
     loadingMore := false; detectionsError := None; expandedId := None;
     log := [] |}.

(** [$derived(detections.length < totalDetections)] *)
Definition hasMore (s : State) : bool :=
  (Z.of_nat (length (detections s)) <? totalDetections s)%Z.

Definition set_summaryPart (l : bool) (e : option string)
    (d : option SummaryData) (s : State) : State :=
  {| summaryLoading := l; summaryError := e; summary := d;
     detections := detections s; totalDetections := totalDetections s;
     detectionsLoading := detectionsLoading s; loadingMore := loadingMore s;
     detectionsError := detectionsError s; expandedId := expandedId s;
     log := log s |}.

Definition set_detectionsPart (ds : list DashboardDetection) (t : Z)
    (l m : bool) (e : option string) (s : State) : State :=
  {| summaryLoading := summaryLoading s; summaryError := summaryError s;
     summary := summary s;
     detections := ds; totalDetections := t; detectionsLoading := l;
     loadingMore := m; detectionsError := e; expandedId := expandedId s;
     log := log s |}.

Definition set_expandedId (o : option Z) (s : State) : State :=
  {| summaryLoading := summaryLoading s; summaryError := summaryError s;
     summary := summary s;
     detections := detections s; totalDetections := totalDetections s;
     detectionsLoading := detectionsLoading s; loadingMore := loadingMore s;
     detectionsError := detectionsError s; expandedId := o;
     log := log s |}.

Definition logged (e : LogEntry) (s : State) : State :=
  {| summaryLoading := summaryLoading s; summaryError := summaryError s;
     summary := summary s;
     detections := detections s; totalDetections := totalDetections s;
     detectionsLoading := detectionsLoading s; loadingMore := loadingMore s;
     detectionsError := detectionsError s; expandedId := expandedId s;
     log := log s ++ [e] |}.

(** [err instanceof Error ? err.message : fallback] *)
Definition errorText (fallback : string) (e : ThrownValue) : string :=
  match e with
  | ErrorObject message => message
  | NonError => fallback
  end.

(** The [try] block up to the parsed body: what is thrown, or the value.
    A response that is not [ok] throws [new Error(prefix + statusText)]. *)
Definition awaited {A} (prefix : string) (r : Fetched A) : ThrownValue + A :=
  match r with
  | FetchRejected e => inl e
  | FetchResponded false statusText _ => inl (ErrorObject (prefix +:+ statusText))
  | FetchResponded true _ body => body
  end.

(** **** [loadSummary] *)

(** The statistics computed from the daily summary. *)
Definition summarize (data : list DailySpecies) : SummaryData :=
  {| summaryTotalDetections :=
       fold_left (fun sum species => (sum + count species)%Z) data 0%Z;
     uniqueSpecies := length data;
     topSpecies :=
       match data with
       | first :: _ => Some (common_name first)
       | [] => None
       end |}.

(** Up to [await fetch]. *)
Definition loadSummary_start (s : State) : State :=
  set_summaryPart true None (summary s) s.

(** From the settled request to the end of [finally]. *)
Definition loadSummary_resume (r : Fetched (list DailySpecies)) (s : State)
    : State :=
  match awaited "Failed to fetch summary: " r with
  | inr data =>
      set_summaryPart false (summaryError s) (Some (summarize data)) s
  | inl err =>
      let s1 := logged (LogError "Failed to load summary") s in
      set_summaryPart false (Some (errorText "Failed to load summary" err))
        (summary s1) s1
  end.

(** **** [loadDetections] and [loadMore] *)

Section Today.

(** [const today = getLocalDateString()] *)
Variable today : string.

(** Up to [await fetch]: the new state and the request sent, if any. *)
Definition loadDetections_start (append : bool) (s : State)
    : State * option DetectionsRequest :=
  if loadingMore s then (s, None)
  else
    let s1 :=
      if append then
        set_detectionsPart (detections s) (totalDetections s)
          (detectionsLoading s) true (detectionsError s) s
      else
        set_detectionsPart [] (totalDetections s) true (loadingMore s) None s
    in
    let offset := if append then length (detections s1) else 0%nat in
    (s1, Some {| start_date := today; end_date := today;
                 numResults := PAGE_SIZE; offset := offset |}).

(** The field-by-field copy of an item of the response. *)
Definition toDashboardDetection (d : DashboardDetection) : DashboardDetection :=
  {| id := id d; commonName := commonName d;
     scientificName := scientificName d; confidence := confidence d;
     date := date d; time := time d; verified := verified d |}.

(** From the settled request to the end of [finally]. *)
Definition loadDetections_resume (append : bool)
    (r : Fetched DetectionsResponse) (s : State) : State :=
  match awaited "Failed to fetch detections: " r with
  | inr result =>
      let newDetections := map toDashboardDetection (data result) in
      set_detectionsPart
        (if append then detections s ++ newDetections else newDetections)
        (total result) false false (detectionsError s) s
  | inl err =>
      let s1 := logged (LogError "Failed to load detections") s in
      set_detectionsPart (detections s1) (totalDetections s1) false false
        (Some (errorText "Failed to load detections" err)) s1
  end.

Definition loadMore (s : State) : State * option DetectionsRequest :=
  if hasMore s && negb (loadingMore s) then loadDetections_start true s
  else (s, None).

(** The callback of the [IntersectionObserver] on the sentinel. *)
Definition onIntersect (isIntersecting : bool) (s : State)
    : State * option DetectionsRequest :=
  if isIntersecting && hasMore s && negb (loadingMore s)
     && negb (detectionsLoading s)
  then loadMore s
  else (s, None).

End Today.

(** **** Rows *)

Definition toggleExpanded (i : Z) (s : State) : State :=
  set_expandedId
    (if bool_decide (expandedId s = Some i) then None else Some i) s.

Definition handlePlay (detection : DashboardDetection) : M unit :=
  playDetection (id detection).

(** The [isPlaying] property the page passes to the row of [detection]:
    [$currentlyPlayingId === detection.id && $isPlaying]. *)
Definition rowIsPlaying (w : World) (detection : DashboardDetection) : bool :=
  bool_decide (currentlyPlayingId (store w) = Some (id detection))
  && isPlaying (store w).

Definition withVerified (v : string) (d : DashboardDetection)
    : DashboardDetection :=
  {| id := id d; commonName := commonName d;
     scientificName := scientificName d; confidence := confidence d;
     date := date d; time := time d; verified := Some v |}.

(** [handleVerify] from the settled [fetchWithCSRF] on: [None] when it
    resolved, [Some e] when it threw [e]. *)
Definition handleVerify_resume (detection : DashboardDetection)
    (thrown : option ThrownValue) (s : State) : State :=
  match thrown with
  | None =>
      logged (LogInfo "Detection verified")
        (set_detectionsPart
           (map (fun d => if (id d =? id detection)%Z
                          then withVerified "correct" d else d)
                (detections s))
           (totalDetections s) (detectionsLoading s) (loadingMore s)
           (detectionsError s) s)
  | Some _ => logged (LogError "Failed to verify detection") s
  end.

(** [handleDismiss], likewise. *)
Definition handleDismiss_resume (detection : DashboardDetection)
    (thrown : option ThrownValue) (s : State) : State :=
  match thrown with
  | None =>
      logged (LogInfo "Detection dismissed")
        (set_detectionsPart
           (map (fun d => if (id d =? id detection)%Z
                          then withVerified "false_positive" d else d)
                (detections s))
           (totalDetections s) (detectionsLoading s) (loadingMore s)
           (detectionsError s) s)
  | Some _ => logged (LogError "Failed to dismiss detection") s
  end.

(** **** A server that holds a fixed list *)

(** The answer of a server that holds the detections [db] of the day and
    pages them as asked. *)
Definition serve (db : list DashboardDetection) (req : DetectionsRequest)
    : Fetched DetectionsResponse :=
  FetchResponded true "OK"
    (inr {| data := take (numResults req) (drop (offset req) db);
            total := Z.of_nat (length db) |}).

(** A request, if one was sent, answered by that server. *)
Definition answered (today : string) (db : list DashboardDetection)
    (append : bool) (sent : State * option DetectionsRequest) : State :=
  match sent with
  | (s, Some req) => loadDetections_resume append (serve db req) s
  | (s, None) => s
  end.

(** The page mounts and the first page arrives. *)
Definition firstPage (today : string) (db : list DashboardDetection) : State :=
  answered today db false (loadDetections_start today false initialState).

(** The sentinel scrolls into view and the next page, if asked for,
    arrives. *)
Definition scroll (today : string) (db : list DashboardDetection)
    (s : State) : State :=
  answered today db true (onIntersect today true s).

End Dashboard.

(** **** Scenarios and abbreviations for the dashboard *)

(** A whole call of [loadDetections(append)]: the part up to the request
    and, if a request was sent, the part from its settling as [r] on, with
    nothing happening in between. *)
Definition loadDetectionsRun (today : string) (append : bool)
    (r : Dashboard.Fetched Dashboard.DetectionsResponse)
    (s : Dashboard.State) : Dashboard.State :=
  match Dashboard.loadDetections_start today append s with
  | (s1, Some _) => Dashboard.loadDetections_resume append r s1
  | (s1, None) => s1
  end.

(** A failed call of [loadDetections(append)] as the page shows it: a
    load-more keeps the rows, a first load or reload has none left; the
    total is that of before, nothing is loading, [msg] is the error and
    the failure is logged. *)
Definition pageLoadFailed (append : bool) (msg : string)
    (s s' : Dashboard.State) : Prop :=
  Dashboard.detections s' = (if append then Dashboard.detections s else [])
  ∧ Dashboard.totalDetections s' = Dashboard.totalDetections s
  ∧ Dashboard.detectionsLoading s' = false
  ∧ Dashboard.loadingMore s' = false
  ∧ Dashboard.detectionsError s' = Some msg
  ∧ Dashboard.log s'
    = Dashboard.log s ++ [Dashboard.LogError "Failed to load detections"].

(** The rows of [ds] after a review of the detection [i] with verdict [v]:
    same length and order, the rows of [i] carry the verdict, the others
    are as they were. *)
Definition reviewed (i : Z) (v : string)
    (ds ds' : list Dashboard.DashboardDetection) : Prop :=
  map Dashboard.id ds' = map Dashboard.id ds
  ∧ ∀ n d, ds !! n = Some d ->
      ds' !! n = Some (if (Dashboard.id d =? i)%Z
                       then Dashboard.withVerified v d else d).

(** A day with 45 detections, numbered from 1. *)
Definition sampleDay : list Dashboard.DashboardDetection :=
  map (fun n => Dashboard.mkDetection (Z.of_nat n) "Parus major" "Parus major"
                  0%Qc "2024-05-01" "06:30:00" None)
      (seq 1 45).

(** The state in which the whole day [db] up to row [n] is shown. *)
Definition showing (db : list Dashboard.DashboardDetection) (n : nat)
    : Dashboard.State :=
  Dashboard.set_detectionsPart (take n db) (Z.of_nat (length db)) false false
    None Dashboard.initialState.

(** * Properties *)

(** ** Proof support *)

Ltac unfold_prims :=
  unfold logger_debug, logger_error, get_currentlyPlayingId,
    currentlyPlayingId_set, isPlaying_set, get_audioElement, get_audioRef,
    audioRef_set, _isLoading_set, _error_set, null_access, el_paused,
    el_pause, el_set_currentTime, el_load, el_play_catch, el_error_opt,
    bind, ret, gets, modify, throw in *.

Ltac unfold_world :=
  unfold put_isPlaying, with_store, with_player, with_element, with_promises,
    record_event in *; cbn in *.

Ltac unfold_player :=
  unfold handleCanPlay, handleCanPlay_catch, handleEnded, handleError,
    effect_register, effect_load, onDestroy, settle, run_catch in *.

Ltac unfold_store :=
  unfold playDetection, playDetection_catch, stopPlayback,
    isDetectionPlaying, registerAudioElement in *; unfold_prims; unfold_world.

Lemma deref_insert_eq (els : gmap nat HTMLAudioElement) r a :
  deref (<[r := a]> els) r = a.
Proof. unfold deref. by rewrite lookup_insert_eq. Qed.

Lemma deref_insert_ne (els : gmap nat HTMLAudioElement) r r' a :
  r ≠ r' -> deref (<[r := a]> els) r' = deref els r'.
Proof. intros Hne. unfold deref. by rewrite lookup_insert_ne. Qed.

(** The two branches of [playDetection], as equations. *)

Lemma playDetection_new_selection id w :
  currentlyPlayingId (store w) ≠ Some id ∨ audioElement (store w) = None ->
  playDetection id w =
    Normal tt
      {| store := {| currentlyPlayingId := Some id; isPlaying := true;
                     audioElement := audioElement (store w) |};
         player := player w; elements := elements w; promises := promises w;
         trace := trace w ++ [EvLog "mobile-audio" Debug "Playing detection"] |}.
Proof.
  intros Hbranch. unfold_store.
  destruct Hbranch as [Hne | Hnone].
  - rewrite bool_decide_eq_false_2 by done. reflexivity.
  - replace (truthy (audioElement (store w))) with false by (by rewrite Hnone).
    rewrite andb_false_r. reflexivity.
Qed.

Lemma playDetection_resume id w h :
  currentlyPlayingId (store w) = Some id ->
  audioElement (store w) = Some h ->
  paused (deref (elements w) h) = true ->
  playDetection id w =
    Normal tt
      {| store := {| currentlyPlayingId := Some id; isPlaying := true;
                     audioElement := Some h |};
         player := player w;
         elements :=
           <[h := {| paused := if allowedToPlay (deref (elements w) h)
                               then false else true;
                     currentTime := currentTime (deref (elements w) h);
                     error := error (deref (elements w) h);
                     allowedToPlay := allowedToPlay (deref (elements w) h) |}]>
             (elements w);
         promises := promises w ++ [ResumeCatch];
         trace := trace w ++ [EvPlay h] |}.
Proof.
  intros Hsel Hel Hp. unfold_store.
  rewrite Hsel, Hel. rewrite bool_decide_eq_true_2 by done. simpl.
  rewrite Hp. cbn. rewrite ?Hsel, ?Hel, ?Hp. reflexivity.
Qed.

Lemma playDetection_pause id w h :
  currentlyPlayingId (store w) = Some id ->
  audioElement (store w) = Some h ->
  paused (deref (elements w) h) = false ->
  playDetection id w =
    Normal tt
      {| store := {| currentlyPlayingId := Some id; isPlaying := false;
                     audioElement := Some h |};
         player := player w;
         elements :=
           <[h := {| paused := true;
                     currentTime := currentTime (deref (elements w) h);
                     error := error (deref (elements w) h);
                     allowedToPlay := allowedToPlay (deref (elements w) h) |}]>
             (elements w);
         promises := promises w;
         trace := trace w ++ [EvPause h] |}.
Proof.
  intros Hsel Hel Hp. unfold_store.
  rewrite Hsel, Hel. rewrite bool_decide_eq_true_2 by done. simpl.
  rewrite Hp. cbn. rewrite ?Hsel, ?Hel, ?Hp. reflexivity.
Qed.

(** [stopPlayback], as an equation. *)
Lemma stopPlayback_eq w :
  stopPlayback w =
    Normal tt
      {| store := {| currentlyPlayingId := None; isPlaying := false;
                     audioElement := audioElement (store w) |};
         player := player w;
         elements :=
           match audioElement (store w) with
           | Some h =>
               <[h := {| paused := true; currentTime := 0;
                         error := error (deref (elements w) h);
                         allowedToPlay := allowedToPlay (deref (elements w) h) |}]>
                 (elements w)
           | None => elements w
           end;
         promises := promises w;
         trace :=
           trace w ++ EvLog "mobile-audio" Debug "Stopping playback" ::
             match audioElement (store w) with
             | Some h => [EvPause h; EvSeek h 0]
             | None => []
             end |}.
Proof.
  unfold_store. destruct (audioElement (store w)) as [h|] eqn:Hel; simpl.
  - rewrite deref_insert_eq, insert_insert_eq; simpl.
    rewrite <- !app_assoc, Hel. reflexivity.
  - rewrite Hel. reflexivity.
Qed.

(** ** The store's operations *)

(** C7: [isDetectionPlaying id] answers whether [id] is the current
    selection, whatever the activity flag is, and leaves the state as it
    was. *)
Theorem isDetectionPlaying_iff_selected (id : Z) (w : World) :
  ∃ b, isDetectionPlaying id w = Normal b w
     ∧ (b = true ↔ currentlyPlayingId (store w) = Some id)
     ∧ ∀ act, isDetectionPlaying id (put_isPlaying act w)
              = Normal b (put_isPlaying act w).
Proof.
  exists (bool_decide (currentlyPlayingId (store w) = Some id)).
  split; [reflexivity|]. split; [|reflexivity].
  split; [apply bool_decide_eq_true_1 | apply bool_decide_eq_true_2].
Qed.

(** C3: when [id] is not the current selection, or no element is
    registered, [playDetection id] selects [id], sets the activity flag and
    does nothing else but log: no element changes, no command is issued on
    the registered element, no promise is created. *)
Theorem playDetection_selects_without_touching_handle (id : Z) (w : World) :
  currentlyPlayingId (store w) ≠ Some id ∨ audioElement (store w) = None ->
  ∃ w', playDetection id w = Normal tt w'
      ∧ currentlyPlayingId (store w') = Some id
      ∧ isPlaying (store w') = true
      ∧ audioElement (store w') = audioElement (store w)
      ∧ elements w' = elements w
      ∧ promises w' = promises w
      ∧ player w' = player w
      ∧ trace w' = trace w ++ [EvLog "mobile-audio" Debug "Playing detection"].
Proof.
  intros Hbranch. eexists. split.
  - by apply playDetection_new_selection.
  - by cbn.
Qed.

(** The scenario of C3: detection 42 is selected and paused, the component
    unregisters its element, and 42 is requested again. *)
Lemma playDetection_selects_without_touching_handle_witness :
  ∃ w', playDetection 42 (step noCallbacks RunOnDestroy paused42) = Normal tt w'
      ∧ currentlyPlayingId (store w') = Some 42
      ∧ isPlaying (store w') = true
      ∧ audioElement (store w') = None
      ∧ elements w' = elements paused42
      ∧ promises w' = promises paused42
      ∧ player w' = player paused42
      ∧ trace w' = trace paused42
                   ++ [EvLog "mobile-audio" Debug "Playing detection"].
Proof.
  apply (playDetection_selects_without_touching_handle 42
           (step noCallbacks RunOnDestroy paused42)).
  right. reflexivity.
Defined.

(** C4: [stopPlayback] always ends with no selection and no activity.  With
    an element registered it pauses that element and rewinds it to 0,
    leaving every other element alone; with none registered the elements
    are untouched.  The component's state and the pending promises are
    never changed. *)
Theorem stopPlayback_clears (w : World) :
  ∃ w', stopPlayback w = Normal tt w'
      ∧ currentlyPlayingId (store w') = None
      ∧ isPlaying (store w') = false
      ∧ audioElement (store w') = audioElement (store w)
      ∧ player w' = player w
      ∧ promises w' = promises w
      ∧ match audioElement (store w) with
        | Some h =>
            paused (deref (elements w') h) = true
            ∧ currentTime (deref (elements w') h) = 0
            ∧ error (deref (elements w') h) = error (deref (elements w) h)
            ∧ (∀ r, r ≠ h -> elements w' !! r = elements w !! r)
            ∧ trace w' = trace w
                ++ [EvLog "mobile-audio" Debug "Stopping playback";
                    EvPause h; EvSeek h 0]
        | None =>
            elements w' = elements w
            ∧ trace w' = trace w
                ++ [EvLog "mobile-audio" Debug "Stopping playback"]
        end.
Proof.
  eexists. split; [apply stopPlayback_eq|]. cbn.
  repeat (split; [reflexivity|]).
  destruct (audioElement (store w)) as [h|].
  - rewrite deref_insert_eq. cbn. repeat (split; [reflexivity|]).
    split; [|reflexivity]. intros r Hne. by rewrite lookup_insert_ne.
  - done.
Qed.

(** C8: [playDetection] and [stopPlayback] return normally in every state,
    also when the element refuses to play; and the closure that receives a
    rejected [play()] of [playDetection] returns normally too, so nothing is
    left to propagate. *)
Theorem playDetection_stopPlayback_never_throw :
  (∀ id w, ∃ w', playDetection id w = Normal tt w')
  ∧ (∀ w, ∃ w', stopPlayback w = Normal tt w')
  ∧ (∀ err w, ∃ w', playDetection_catch err w = Normal tt w').
Proof.
  split; [|split].
  - intros id w.
    destruct (decide (currentlyPlayingId (store w) = Some id)) as [Hsel|Hsel].
    + destruct (audioElement (store w)) as [h|] eqn:Hel.
      * destruct (paused (deref (elements w) h)) eqn:Hp.
        -- eexists. by apply (playDetection_resume id w h).
        -- eexists. by apply (playDetection_pause id w h).
      * eexists. apply playDetection_new_selection. by right.
    + eexists. apply playDetection_new_selection. by left.
  - intros w. eexists. apply stopPlayback_eq.
  - intros err w. eexists. reflexivity.
Qed.

(** ** Toggling *)

(** With [id] selected and an element registered, [playDetection id]
    mirrors the element: the new activity is the element's old [paused]
    flag, and the element is paused afterwards unless it was paused before
    and the user agent let it start. *)
Lemma playDetection_same_id id w h :
  currentlyPlayingId (store w) = Some id ->
  audioElement (store w) = Some h ->
  ∃ w', playDetection id w = Normal tt w'
      ∧ currentlyPlayingId (store w') = Some id
      ∧ audioElement (store w') = Some h
      ∧ isPlaying (store w') = paused (deref (elements w) h)
      ∧ paused (deref (elements w') h) =
          (if paused (deref (elements w) h)
           then negb (allowedToPlay (deref (elements w) h)) else true)
      ∧ allowedToPlay (deref (elements w') h) =
          allowedToPlay (deref (elements w) h).
Proof.
  intros Hsel Hel. destruct (paused (deref (elements w) h)) eqn:Hp.
  - eexists. split; [by apply (playDetection_resume id w h)|]. cbn.
    rewrite deref_insert_eq. cbn.
    by destruct (allowedToPlay (deref (elements w) h)).
  - eexists. split; [by apply (playDetection_pause id w h)|]. cbn.
    by rewrite deref_insert_eq.
Qed.

(** C2, as the code has it: with an element [h] registered, three
    successive [playDetection id] give activity true, false, true with [id]
    selected throughout exactly when either another detection (or none) is
    selected and [h] is not paused, or [id] is selected, [h] is paused and
    the user agent lets it start. *)
Theorem playDetection_toggles_iff (id : Z) (w : World) (h : nat) :
  audioElement (store w) = Some h ->
  toggles id w ↔
    (currentlyPlayingId (store w) ≠ Some id
       ∧ paused (deref (elements w) h) = false)
    ∨ (currentlyPlayingId (store w) = Some id
       ∧ paused (deref (elements w) h) = true
       ∧ allowedToPlay (deref (elements w) h) = true).
Proof.
  intros Hel.
  destruct (decide (currentlyPlayingId (store w) = Some id)) as [Hsel|Hsel].
  - (* same id: the first call already toggles *)
    destruct (playDetection_same_id id w h Hsel Hel)
      as (w1 & E1 & S1 & A1 & P1 & Q1 & R1).
    destruct (playDetection_same_id id w1 h S1 A1)
      as (w2 & E2 & S2 & A2 & P2 & Q2 & R2).
    destruct (playDetection_same_id id w2 h S2 A2)
      as (w3 & E3 & S3 & A3 & P3 & Q3 & R3).
    split.
    + intros (v1 & v2 & v3 & F1 & F2 & F3 & T1 & T2 & T3 & _).
      rewrite E1 in F1. injection F1 as <-.
      rewrite E2 in F2. injection F2 as <-.
      right. split; [done|].
      rewrite P1 in T1. split; [done|].
      rewrite P2, Q1, T1 in T2.
      by destruct (allowedToPlay (deref (elements w) h)).
    + intros [[Hne _] | (_ & Hp & Hal)]; [done|].
      exists w1, w2, w3. repeat (split; [done|]).
      rewrite P1, P2, P3, Q2, Q1, Hp, Hal. done.
  - (* another id: the first call only selects *)
    pose proof (playDetection_new_selection id w (or_introl Hsel)) as E1.
    set (w1 := {| store := _ |}) in E1.
    destruct (playDetection_same_id id w1 h eq_refl Hel)
      as (w2 & E2 & S2 & A2 & P2 & Q2 & R2).
    destruct (playDetection_same_id id w2 h S2 A2)
      as (w3 & E3 & S3 & A3 & P3 & Q3 & R3).
    cbn in P2, Q2.
    split.
    + intros (v1 & v2 & v3 & F1 & F2 & F3 & T1 & T2 & T3 & _).
      rewrite E1 in F1. injection F1 as <-.
      rewrite E2 in F2. injection F2 as <-.
      left. split; [done|]. by rewrite P2 in T2.
    + intros [[_ Hp] | (Heq & _)]; [|done].
      exists w1, w2, w3. repeat (split; [done|]).
      rewrite P2, P3, Q2, Hp. done.
Qed.

(** Detection 42 paused on an element that may start: the next three taps
    resume, pause and resume. *)
Lemma playDetection_toggles_iff_witness : toggles 42 paused42.
Proof.
  apply (playDetection_toggles_iff 42 paused42 1%nat); [reflexivity|].
  right. repeat split; reflexivity.
Defined.

(** C2 as stated fails, in two ways.  With detection 42 selected and
    rendering on the registered element 1, the first [playDetection 42]
    pauses it, so the activity flag is false after the first call.  With
    nothing selected and element 1 registered but paused, the first call
    selects 42 and the second finds the element paused and asks it to play,
    so the activity flag is still true after the second call. *)
Lemma toggles_fails_while_rendering :
  (audioElement (store rendering42) = Some 1%nat ∧ ¬ toggles 42 rendering42)
  ∧ (audioElement (store stopped42) = Some 1%nat ∧ ¬ toggles 42 stopped42).
Proof.
  split; (split; [reflexivity|]).
  - intros (w1 & w2 & w3 & F1 & _ & _ & T1 & _).
    vm_compute in F1. injection F1 as <-. discriminate T1.
  - intros (w1 & w2 & w3 & F1 & F2 & _ & _ & T2 & _).
    vm_compute in F1. injection F1 as <-.
    vm_compute in F2. injection F2 as <-. discriminate T2.
Qed.

(** ** Settling a [play()] promise *)

(** Settling the promise created last removes it and, on rejection, runs
    its closure. *)
Lemma settle_last props w ps h res :
  promises w = ps ++ [h] ->
  settle props (length ps) res w =
    match res with
    | None => Normal tt (with_promises (fun _ => ps) w)
    | Some err => run_catch props h err (with_promises (fun _ => ps) w)
    end.
Proof.
  intros Hps. unfold settle, bind, gets, modify, ret, with_promises. cbn.
  rewrite Hps, list_lookup_middle by done. cbn.
  rewrite Hps, delete_middle, app_nil_r. by destruct res.
Qed.

(** C9: with [id] selected on a registered, paused element, [playDetection
    id] sets the activity flag whatever the user agent decides; when the
    [play()] promise is later rejected, its closure only logs: selection,
    activity, the component's state and every element stay as they were,
    and no callback of any parent is invoked. *)
Theorem resume_failure_not_rolled_back
    (props : Props) (id : Z) (w : World) (h : nat) (err : DOMException) :
  currentlyPlayingId (store w) = Some id ->
  audioElement (store w) = Some h ->
  paused (deref (elements w) h) = true ->
  ∃ w1 w2,
    playDetection id w = Normal tt w1
    ∧ currentlyPlayingId (store w1) = Some id
    ∧ isPlaying (store w1) = true
    ∧ promises w1 = promises w ++ [ResumeCatch]
    ∧ settle props (length (promises w)) (Some err) w1 = Normal tt w2
    ∧ store w2 = store w1
    ∧ player w2 = player w1
    ∧ elements w2 = elements w1
    ∧ promises w2 = promises w
    ∧ trace w2 = trace w1
        ++ [EvLog "mobile-audio" Error "Failed to resume playback"].
Proof.
  intros Hsel Hel Hp.
  pose proof (playDetection_resume id w h Hsel Hel Hp) as E1.
  set (w1 := {| store := _ |}) in E1.
  exists w1. eexists. split; [exact E1|].
  do 3 (split; [reflexivity|]).
  rewrite (settle_last props w1 (promises w) ResumeCatch (Some err) eq_refl).
  split; [reflexivity|]. done.
Qed.

(** Detection 42 selected on element 1, which the user agent does not let
    start: the tap sets the activity flag, and the rejection
    ([NotAllowedError]) changes nothing but the log. *)
Lemma resume_failure_not_rolled_back_witness :
  ∃ w1 w2,
    playDetection 42 blocked42 = Normal tt w1
    ∧ currentlyPlayingId (store w1) = Some 42
    ∧ isPlaying (store w1) = true
    ∧ promises w1 = promises blocked42 ++ [ResumeCatch]
    ∧ settle noCallbacks (length (promises blocked42)) (Some NotAllowedError) w1
      = Normal tt w2
    ∧ store w2 = store w1
    ∧ player w2 = player w1
    ∧ elements w2 = elements w1
    ∧ promises w2 = promises blocked42
    ∧ trace w2 = trace w1
        ++ [EvLog "mobile-audio" Error "Failed to resume playback"].
Proof.
  apply (resume_failure_not_rolled_back noCallbacks 42 blocked42 1%nat
           NotAllowedError); reflexivity.
Defined.

(** ** The component's handlers *)

Lemma handleCanPlay_starts w h :
  audioRef (player w) = Some h ->
  currentlyPlayingId (store w) ≠ None ->
  handleCanPlay w =
    Normal tt
      {| store := store w;
         player := {| audioRef := Some h; _isLoading := false;
                      _error := _error (player w) |};
         elements :=
           <[h := {| paused := if allowedToPlay (deref (elements w) h)
                               then false
                               else paused (deref (elements w) h);
                     currentTime := currentTime (deref (elements w) h);
                     error := error (deref (elements w) h);
                     allowedToPlay := allowedToPlay (deref (elements w) h) |}]>
             (elements w);
         promises := promises w ++ [StartCatch];
         trace := trace w ++ [EvPlay h] |}.
Proof.
  intros Href Hsel. unfold_player. unfold_prims. unfold_world.
  rewrite Href. cbn. rewrite bool_decide_eq_true_2 by done. reflexivity.
Qed.

(** C5, as the code has it: on [canplay] with a detection selected the
    component asks its element to play; when that request is rejected the
    closure logs, records "Failed to play audio" and, if the parent gave an
    error callback [f], calls [f "Failed to play audio"] as its last
    action: the outcome of the rejection is the outcome of that call, made
    on a state whose selection and activity are still those of before.
    [stopPlayback] is not called; without a callback the store is left as
    it was. *)
Theorem start_failure_reported_not_cleared
    (props : Props) (w : World) (h : nat) (err : DOMException) :
  audioRef (player w) = Some h ->
  currentlyPlayingId (store w) ≠ None ->
  ∃ w1,
    handleCanPlay w = Normal tt w1
    ∧ store w1 = store w
    ∧ promises w1 = promises w ++ [StartCatch]
    ∧ trace w1 = trace w ++ [EvPlay h]
    ∧ ∃ w_cb,
        store w_cb = store w
        ∧ _error (player w_cb) = Some "Failed to play audio"
        ∧ elements w_cb = elements w1
        ∧ promises w_cb = promises w
        ∧ trace w_cb = trace w1
            ++ [EvLog "mobile-audio-player" Error "Failed to start playback"]
        ∧ settle props (length (promises w)) (Some err) w1
          = call_onError props "Failed to play audio" w_cb
        ∧ (∀ f, onError props = Some f ->
             settle props (length (promises w)) (Some err) w1
             = f "Failed to play audio"
                 (record_event (EvOnError "Failed to play audio") w_cb)
             ∧ store (record_event (EvOnError "Failed to play audio") w_cb)
               = store w)
        ∧ (onError props = None ->
           settle props (length (promises w)) (Some err) w1
           = Normal tt w_cb).
Proof.
  intros Href Hsel.
  pose proof (handleCanPlay_starts w h Href Hsel) as E1.
  set (w1 := {| store := _ |}) in E1.
  exists w1. split; [exact E1|].
  do 3 (split; [reflexivity|]).
  exists (startFailureReported (with_promises (fun _ => promises w) w1)).
  do 5 (split; [reflexivity|]).
  rewrite (settle_last props w1 (promises w) StartCatch (Some err) eq_refl).
  split; [reflexivity|].
  unfold run_catch, handleCanPlay_catch, call_onError. split.
  - intros f Hf. rewrite Hf. split; reflexivity.
  - intros Hnone. rewrite Hnone. reflexivity.
Qed.

(** Detection 42 loaded on an element the user agent does not let start,
    under a parent that logs from its error callback whether 42 is still
    selected: the rejection ends in that callback, called with "Failed to
    play audio" while 42 is selected and active. *)
Lemma start_failure_reported_not_cleared_witness :
  ∃ w1,
    handleCanPlay blocked42 = Normal tt w1
    ∧ store w1 = store blocked42
    ∧ promises w1 = promises blocked42 ++ [StartCatch]
    ∧ trace w1 = trace blocked42 ++ [EvPlay 1%nat]
    ∧ ∃ w_cb,
        store w_cb = store blocked42
        ∧ _error (player w_cb) = Some "Failed to play audio"
        ∧ elements w_cb = elements w1
        ∧ promises w_cb = promises blocked42
        ∧ trace w_cb = trace w1
            ++ [EvLog "mobile-audio-player" Error "Failed to start playback"]
        ∧ settle (reportingParent 42) (length (promises blocked42))
            (Some NotAllowedError) w1
          = call_onError (reportingParent 42) "Failed to play audio" w_cb
        ∧ (∀ f, onError (reportingParent 42) = Some f ->
             settle (reportingParent 42) (length (promises blocked42))
               (Some NotAllowedError) w1
             = f "Failed to play audio"
                 (record_event (EvOnError "Failed to play audio") w_cb)
             ∧ store (record_event (EvOnError "Failed to play audio") w_cb)
               = store blocked42)
        ∧ (onError (reportingParent 42) = None ->
           settle (reportingParent 42) (length (promises blocked42))
             (Some NotAllowedError) w1
           = Normal tt w_cb).
Proof.
  apply (start_failure_reported_not_cleared (reportingParent 42) blocked42
           1%nat NotAllowedError); [reflexivity | discriminate].
Defined.

(** That scenario, run: the parent is told "Failed to play audio", finds 42
    still selected, and 42 stays selected and active afterwards. *)
Example start_failure_scenario :
  ∃ w1 w2,
    handleCanPlay blocked42 = Normal tt w1
    ∧ settle (reportingParent 42) 0 (Some NotAllowedError) w1 = Normal tt w2
    ∧ currentlyPlayingId (store w2) = Some 42
    ∧ isPlaying (store w2) = true
    ∧ trace w2 = trace blocked42 ++
        [EvPlay 1%nat;
         EvLog "mobile-audio-player" Error "Failed to start playback";
         EvOnError "Failed to play audio";
         EvLog "parent" Debug "selected"].
Proof.
  eexists. eexists. split; [vm_compute; reflexivity|].
  split; [vm_compute; reflexivity|]. by vm_compute.
Qed.

(** C5 as stated fails: in that scenario the store is not idle after the
    failed start. *)
Lemma start_failure_leaves_selection :
  ¬ start_failure_clears noCallbacks NotAllowedError blocked42.
Proof.
  intros (w1 & w2 & F1 & F2 & Hsel & _).
  vm_compute in F1. injection F1 as <-.
  vm_compute in F2. injection F2 as <-.
  discriminate Hsel.
Qed.

(** [handleError], as an equation: the message is logged and recorded, then
    the callback runs, then [stopPlayback]. *)
Lemma handleError_eq props w :
  handleError props w =
    (call_onError props
       (errorMessage
          (match audioRef (player w) with
           | Some r => error (deref (elements w) r)
           | None => None
           end)) ;;
     stopPlayback)
      (errorReported
         (errorMessage
            (match audioRef (player w) with
             | Some r => error (deref (elements w) r)
             | None => None
             end)) w).
Proof.
  unfold handleError, el_error_opt, get_audioRef, logger_error, _error_set,
    _isLoading_set.
  unfold bind at 1, gets at 1.
  destruct (audioRef (player w)) as [r|] eqn:Href; reflexivity.
Qed.

Lemma errorMessage_four e :
  code e = MEDIA_ERR_ABORTED ∨ code e = MEDIA_ERR_NETWORK
  ∨ code e = MEDIA_ERR_DECODE ∨ code e = MEDIA_ERR_SRC_NOT_SUPPORTED ->
  (code e = MEDIA_ERR_ABORTED ∧ errorMessage (Some e) = "Playback aborted")
  ∨ (code e = MEDIA_ERR_NETWORK ∧ errorMessage (Some e) = "Network error")
  ∨ (code e = MEDIA_ERR_DECODE
     ∧ errorMessage (Some e) = "Audio format not supported")
  ∨ (code e = MEDIA_ERR_SRC_NOT_SUPPORTED
     ∧ errorMessage (Some e) = "Audio not available").
Proof.
  unfold errorMessage. intros [H | [H | [H | H]]]; rewrite H; cbn; tauto.
Qed.

(** Without a [MediaError] on the element (or without an element), and for
    a code outside the four, the message is the initial one. *)
Lemma errorMessage_default :
  errorMessage None = "Failed to load audio"
  ∧ ∀ e, code e < 1 ∨ 4 < code e ->
         errorMessage (Some e) = "Failed to load audio".
Proof.
  split; [reflexivity|]. intros e Hout. unfold errorMessage.
  unfold MEDIA_ERR_ABORTED, MEDIA_ERR_NETWORK, MEDIA_ERR_DECODE,
    MEDIA_ERR_SRC_NOT_SUPPORTED.
  repeat case_match; try reflexivity; lia.
Qed.

(** C6, as the code has it: when the element bound to the component
    carries a [MediaError] with one of the four codes, [handleError] picks
    the message of that code ("Audio format not supported" for a decode
    error) and records it; if the parent gave an error callback [f] it
    calls [f] with that message while the failing detection is still
    selected, and runs [stopPlayback] when [f] has returned: the store then
    ends with no selection and no activity.  If [f] throws, the exception
    leaves [handleError] and [stopPlayback] is not reached.  Without a
    callback [stopPlayback] runs directly. *)
Theorem handleError_reports_then_stops
    (props : Props) (w : World) (h : nat) (e : MediaError) :
  audioRef (player w) = Some h ->
  error (deref (elements w) h) = Some e ->
  code e = MEDIA_ERR_ABORTED ∨ code e = MEDIA_ERR_NETWORK
  ∨ code e = MEDIA_ERR_DECODE ∨ code e = MEDIA_ERR_SRC_NOT_SUPPORTED ->
  ∃ msg w_obs,
    ((code e = MEDIA_ERR_ABORTED ∧ msg = "Playback aborted")
     ∨ (code e = MEDIA_ERR_NETWORK ∧ msg = "Network error")
     ∨ (code e = MEDIA_ERR_DECODE ∧ msg = "Audio format not supported")
     ∨ (code e = MEDIA_ERR_SRC_NOT_SUPPORTED ∧ msg = "Audio not available"))
    ∧ store w_obs = store w
    ∧ _error (player w_obs) = Some msg
    ∧ handleError props w = (call_onError props msg ;; stopPlayback) w_obs
    ∧ (∀ w_cb, call_onError props msg w_obs = Normal tt w_cb ->
         ∃ w', handleError props w = Normal tt w'
             ∧ stopPlayback w_cb = Normal tt w'
             ∧ currentlyPlayingId (store w') = None
             ∧ isPlaying (store w') = false)
    ∧ (∀ f, onError props = Some f ->
         store (record_event (EvOnError msg) w_obs) = store w
         ∧ handleError props w
           = (f msg ;; stopPlayback) (record_event (EvOnError msg) w_obs)
         ∧ (∀ w_cb,
              f msg (record_event (EvOnError msg) w_obs) = Normal tt w_cb ->
              ∃ w', handleError props w = Normal tt w'
                  ∧ stopPlayback w_cb = Normal tt w'
                  ∧ currentlyPlayingId (store w') = None
                  ∧ isPlaying (store w') = false)
         ∧ (∀ x w_t,
              f msg (record_event (EvOnError msg) w_obs) = Thrown x w_t ->
              handleError props w = Thrown x w_t))
    ∧ (onError props = None ->
         ∃ w', handleError props w = Normal tt w'
             ∧ stopPlayback w_obs = Normal tt w'
             ∧ currentlyPlayingId (store w') = None
             ∧ isPlaying (store w') = false).
Proof.
  intros Href Herr Hcode.
  pose proof (handleError_eq props w) as Eq.
  rewrite Href, Herr in Eq.
  exists (errorMessage (Some e)), (errorReported (errorMessage (Some e)) w).
  split; [by apply errorMessage_four|].
  do 2 (split; [reflexivity|]). split; [exact Eq|].
  assert (Hafter : ∀ w_cb,
    call_onError props (errorMessage (Some e))
      (errorReported (errorMessage (Some e)) w) = Normal tt w_cb ->
    ∃ w', handleError props w = Normal tt w'
        ∧ stopPlayback w_cb = Normal tt w'
        ∧ currentlyPlayingId (store w') = None
        ∧ isPlaying (store w') = false).
  { intros w_cb Hcb. rewrite Eq. unfold bind at 1. rewrite Hcb.
    eexists. split; [apply stopPlayback_eq|].
    split; [apply stopPlayback_eq|]. done. }
  split; [exact Hafter|]. split.
  - intros f Hf.
    assert (Hcall : ∀ w0, call_onError props (errorMessage (Some e)) w0
      = f (errorMessage (Some e))
          (record_event (EvOnError (errorMessage (Some e))) w0)).
    { intros w0. unfold call_onError. rewrite Hf. reflexivity. }
    split; [reflexivity|]. split; [|split].
    + rewrite Eq. unfold bind. by rewrite Hcall.
    + intros w_cb Hcb. apply Hafter. by rewrite Hcall.
    + intros x w_t Hthrown. rewrite Eq. unfold bind at 1.
      by rewrite Hcall, Hthrown.
  - intros Hnone. apply Hafter. unfold call_onError. by rewrite Hnone.
Qed.

(** The scenario of C6: detection 42 is selected, decoding fails, and the
    parent's callback is told "Audio format not supported". *)
Lemma handleError_reports_then_stops_witness :
  ∃ msg w_obs,
    ((3 = MEDIA_ERR_ABORTED ∧ msg = "Playback aborted")
     ∨ (3 = MEDIA_ERR_NETWORK ∧ msg = "Network error")
     ∨ (3 = MEDIA_ERR_DECODE ∧ msg = "Audio format not supported")
     ∨ (3 = MEDIA_ERR_SRC_NOT_SUPPORTED ∧ msg = "Audio not available"))
    ∧ store w_obs = store decodeError42
    ∧ _error (player w_obs) = Some msg
    ∧ handleError (reportingParent 42) decodeError42
      = (call_onError (reportingParent 42) msg ;; stopPlayback) w_obs
    ∧ (∀ w_cb, call_onError (reportingParent 42) msg w_obs = Normal tt w_cb ->
         ∃ w', handleError (reportingParent 42) decodeError42 = Normal tt w'
             ∧ stopPlayback w_cb = Normal tt w'
             ∧ currentlyPlayingId (store w') = None
             ∧ isPlaying (store w') = false)
    ∧ (∀ f, onError (reportingParent 42) = Some f ->
         store (record_event (EvOnError msg) w_obs) = store decodeError42
         ∧ handleError (reportingParent 42) decodeError42
           = (f msg ;; stopPlayback) (record_event (EvOnError msg) w_obs)
         ∧ (∀ w_cb,
              f msg (record_event (EvOnError msg) w_obs) = Normal tt w_cb ->
              ∃ w', handleError (reportingParent 42) decodeError42
                    = Normal tt w'
                  ∧ stopPlayback w_cb = Normal tt w'
                  ∧ currentlyPlayingId (store w') = None
                  ∧ isPlaying (store w') = false)
         ∧ (∀ x w_t,
              f msg (record_event (EvOnError msg) w_obs) = Thrown x w_t ->
              handleError (reportingParent 42) decodeError42 = Thrown x w_t))
    ∧ (onError (reportingParent 42) = None ->
         ∃ w', handleError (reportingParent 42) decodeError42 = Normal tt w'
             ∧ stopPlayback w_obs = Normal tt w'
             ∧ currentlyPlayingId (store w') = None
             ∧ isPlaying (store w') = false).
Proof.
  apply (handleError_reports_then_stops (reportingParent 42) decodeError42
           1%nat {| code := MEDIA_ERR_DECODE |}).
  - reflexivity.
  - reflexivity.
  - right. right. left. reflexivity.
Defined.

(** C6 as stated fails: with detection 42 selected and a decode error, a
    parent whose error callback throws keeps [handleError] from reaching
    [stopPlayback]; 42 is still selected and active when the handler is
    left. *)
Lemma load_error_with_throwing_callback :
  ¬ load_error_ends_idle throwingParent decodeError42.
Proof. intros [Hsel _]. vm_compute in Hsel. discriminate Hsel. Qed.

(** The same scenario, run: the callback is invoked with the decode
    message while 42 is still the selection, and the store is idle at the
    end. *)
Example decode_error_scenario :
  ∃ w', handleError (reportingParent 42) decodeError42 = Normal tt w'
      ∧ currentlyPlayingId (store decodeError42) = Some 42
      ∧ currentlyPlayingId (store w') = None
      ∧ isPlaying (store w') = false
      ∧ _error (player w') = Some "Audio format not supported"
      ∧ trace w' = trace decodeError42 ++
          [EvLog "mobile-audio-player" Error "Audio error";
           EvOnError "Audio format not supported";
           EvLog "parent" Debug "selected";
           EvLog "mobile-audio" Debug "Stopping playback";
           EvPause 1%nat; EvSeek 1%nat 0].
Proof. eexists. split; [vm_compute; reflexivity|]. by vm_compute. Qed.

Lemma handleEnded_eq props w :
  handleEnded props w =
    call_onPlayEnd props
      {| store := {| currentlyPlayingId := None; isPlaying := false;
                     audioElement := audioElement (store w) |};
         player := player w;
         elements :=
           match audioElement (store w) with
           | Some h =>
               <[h := {| paused := true; currentTime := 0;
                         error := error (deref (elements w) h);
                         allowedToPlay := allowedToPlay (deref (elements w) h) |}]>
                 (elements w)
           | None => elements w
           end;
         promises := promises w;
         trace :=
           (trace w ++ [EvLog "mobile-audio-player" Debug "Playback ended"])
           ++ EvLog "mobile-audio" Debug "Stopping playback" ::
             match audioElement (store w) with
             | Some h => [EvPause h; EvSeek h 0]
             | None => []
             end |}.
Proof.
  unfold handleEnded, logger_debug. unfold bind at 1, modify at 1.
  unfold bind at 1. rewrite stopPlayback_eq. reflexivity.
Qed.

(** C10: the two terminal handlers order clearing and callback
    differently.  [handleEnded] first runs [stopPlayback], which leaves no
    selection and no activity, and then, as its last action, calls the
    optional play-ended callback on that cleared state.  [handleError]
    calls the optional error callback, with the message it has recorded,
    on a state whose store is still the one the handler was entered with
    (the failing detection selected), and runs [stopPlayback] after it. *)
Theorem terminal_handlers_order (props : Props) (w : World) :
  (∃ w_idle,
     stopPlayback
       (record_event (EvLog "mobile-audio-player" Debug "Playback ended") w)
     = Normal tt w_idle
     ∧ currentlyPlayingId (store w_idle) = None
     ∧ isPlaying (store w_idle) = false
     ∧ handleEnded props w = call_onPlayEnd props w_idle
     ∧ (∀ f, onPlayEnd props = Some f ->
          handleEnded props w = f (record_event EvOnPlayEnd w_idle)
          ∧ store (record_event EvOnPlayEnd w_idle) = store w_idle)
     ∧ (onPlayEnd props = None -> handleEnded props w = Normal tt w_idle))
  ∧ (∃ msg w_obs,
       msg = errorMessage
               (match audioRef (player w) with
                | Some r => error (deref (elements w) r)
                | None => None
                end)
       ∧ store w_obs = store w
       ∧ _error (player w_obs) = Some msg
       ∧ handleError props w
         = (call_onError props msg ;; stopPlayback) w_obs
       ∧ (∀ f, onError props = Some f ->
            handleError props w
            = (f msg ;; stopPlayback) (record_event (EvOnError msg) w_obs)
            ∧ store (record_event (EvOnError msg) w_obs) = store w)
       ∧ (onError props = None -> handleError props w = stopPlayback w_obs)).
Proof.
  split.
  - eexists. split; [apply stopPlayback_eq|].
    do 2 (split; [reflexivity|]). split; [apply handleEnded_eq|].
    rewrite handleEnded_eq. unfold call_onPlayEnd. split.
    + intros f Hf. rewrite Hf. split; reflexivity.
    + intros Hnone. rewrite Hnone. reflexivity.
  - set (msg := errorMessage
                  (match audioRef (player w) with
                   | Some r => error (deref (elements w) r)
                   | None => None
                   end)).
    exists msg, (errorReported msg w). split; [reflexivity|].
    do 2 (split; [reflexivity|]). split; [apply handleError_eq|].
    rewrite handleError_eq. unfold call_onError, bind. split.
    + intros f Hf. rewrite Hf. split; reflexivity.
    + intros Hnone. rewrite Hnone. reflexivity.
Qed.

(** Both handlers under a parent that logs, from inside its callbacks,
    whether detection 42 is selected. *)
Lemma terminal_handlers_order_witness :
  (∃ w_idle,
     stopPlayback
       (record_event (EvLog "mobile-audio-player" Debug "Playback ended")
          decodeError42)
     = Normal tt w_idle
     ∧ currentlyPlayingId (store w_idle) = None
     ∧ isPlaying (store w_idle) = false
     ∧ handleEnded (reportingParent 42) decodeError42
       = call_onPlayEnd (reportingParent 42) w_idle
     ∧ (∀ f, onPlayEnd (reportingParent 42) = Some f ->
          handleEnded (reportingParent 42) decodeError42
          = f (record_event EvOnPlayEnd w_idle)
          ∧ store (record_event EvOnPlayEnd w_idle) = store w_idle)
     ∧ (onPlayEnd (reportingParent 42) = None ->
        handleEnded (reportingParent 42) decodeError42 = Normal tt w_idle))
  ∧ (∃ msg w_obs,
       msg = errorMessage
               (match audioRef (player decodeError42) with
                | Some r => error (deref (elements decodeError42) r)
                | None => None
                end)
       ∧ store w_obs = store decodeError42
       ∧ _error (player w_obs) = Some msg
       ∧ handleError (reportingParent 42) decodeError42
         = (call_onError (reportingParent 42) msg ;; stopPlayback) w_obs
       ∧ (∀ f, onError (reportingParent 42) = Some f ->
            handleError (reportingParent 42) decodeError42
            = (f msg ;; stopPlayback) (record_event (EvOnError msg) w_obs)
            ∧ store (record_event (EvOnError msg) w_obs) = store decodeError42)
       ∧ (onError (reportingParent 42) = None ->
          handleError (reportingParent 42) decodeError42
          = stopPlayback w_obs)).
Proof.
  apply (terminal_handlers_order (reportingParent 42) decodeError42).
Defined.

(** What a parent sees from inside its callbacks, with detection 42
    selected: at the end of the clip 42 is no longer selected, on a decode
    error it still is. *)
Example callbacks_observe :
  (∃ w', handleEnded (reportingParent 42) rendering42 = Normal tt w'
       ∧ trace w' = trace rendering42 ++
           [EvLog "mobile-audio-player" Debug "Playback ended";
            EvLog "mobile-audio" Debug "Stopping playback";
            EvPause 1%nat; EvSeek 1%nat 0;
            EvOnPlayEnd;
            EvLog "parent" Debug "not selected"])
  ∧ (∃ w', handleError (reportingParent 42) decodeError42 = Normal tt w'
         ∧ trace w' = trace decodeError42 ++
             [EvLog "mobile-audio-player" Error "Audio error";
              EvOnError "Audio format not supported";
              EvLog "parent" Debug "selected";
              EvLog "mobile-audio" Debug "Stopping playback";
              EvPause 1%nat; EvSeek 1%nat 0]).
Proof.
  split; eexists; (split; [vm_compute; reflexivity|]); by vm_compute.
Qed.

(** ** The invariant *)

Lemma world_of_bind {A B} (c : M A) (k : A -> M B) w :
  world_of (bind c k w) =
    match c w with
    | Normal a w' => world_of (k a w')
    | Thrown _ w' => w'
    end.
Proof. unfold bind. by destruct (c w). Qed.

Lemma preserves_bind {A B} P (c : M A) (k : A -> M B) :
  preserves P c -> (∀ a, preserves P (k a)) -> preserves P (bind c k).
Proof.
  intros Hc Hk w Hw. rewrite world_of_bind.
  specialize (Hc w Hw). destruct (c w) as [a w'|e w']; cbn in Hc; [|done].
  by apply Hk.
Qed.

Lemma preserves_ret {A} P (a : A) : preserves P (ret a).
Proof. by intros w Hw. Qed.

Lemma preserves_gets {A} P (f : World -> A) : preserves P (gets f).
Proof. by intros w Hw. Qed.

Lemma preserves_throw {A} P e : preserves P (@throw A e).
Proof. by intros w Hw. Qed.

(** A state change that leaves selection and activity alone keeps the
    invariant. *)
Lemma preserves_modify_frame (f : World -> World) :
  (∀ w, currentlyPlayingId (store (f w)) = currentlyPlayingId (store w)) ->
  (∀ w, isPlaying (store (f w)) = isPlaying (store w)) ->
  preserves activity_implies_selection (modify f).
Proof.
  intros Hsel Hact w Hw. unfold activity_implies_selection, modify. cbn.
  rewrite Hsel, Hact. exact Hw.
Qed.

Ltac preserves_step :=
  match goal with
  | |- preserves _ (bind _ _) => apply preserves_bind; [|intros ?]
  | |- preserves _ (ret _) => apply preserves_ret
  | |- preserves _ (gets _) => apply preserves_gets
  | |- preserves _ (throw _) => apply preserves_throw
  | |- preserves _ (modify _) =>
      apply preserves_modify_frame; intros ?; reflexivity
  | |- preserves _ (if ?b then _ else _) => destruct b
  | |- preserves _ (match ?o with Some _ => _ | None => _ end) => destruct o
  end.

Ltac preserves_frame :=
  unfold logger_debug, logger_error, get_currentlyPlayingId,
    get_audioElement, get_audioRef, audioRef_set, _isLoading_set, _error_set,
    el_paused, el_pause, el_set_currentTime, el_load, el_play_catch,
    el_error_opt, registerAudioElement, null_access;
  repeat preserves_step.

Lemma playDetection_preserves id :
  preserves activity_implies_selection (playDetection id).
Proof.
  intros w _.
  destruct (decide (currentlyPlayingId (store w) = Some id)) as [Hsel|Hsel].
  - destruct (audioElement (store w)) as [h|] eqn:Hel.
    + destruct (paused (deref (elements w) h)) eqn:Hp.
      * by rewrite (playDetection_resume id w h).
      * by rewrite (playDetection_pause id w h).
    + by rewrite playDetection_new_selection by by right.
  - by rewrite playDetection_new_selection by by left.
Qed.

Lemma stopPlayback_preserves :
  preserves activity_implies_selection stopPlayback.
Proof. intros w _. by rewrite stopPlayback_eq. Qed.

Lemma registerAudioElement_preserves element :
  preserves activity_implies_selection (registerAudioElement element).
Proof. preserves_frame. Qed.

Lemma isDetectionPlaying_preserves id :
  preserves activity_implies_selection (isDetectionPlaying id).
Proof. unfold isDetectionPlaying. preserves_frame. Qed.

Lemma handleCanPlay_preserves :
  preserves activity_implies_selection handleCanPlay.
Proof. unfold handleCanPlay. preserves_frame. Qed.

Lemma effects_preserve :
  preserves activity_implies_selection effect_register
  ∧ preserves activity_implies_selection effect_load
  ∧ preserves activity_implies_selection onDestroy.
Proof.
  unfold effect_register, effect_load, onDestroy.
  repeat split; preserves_frame.
Qed.

Section Invariant.

Variable props : Props.
Hypothesis parent_ok : callbacks_preserve activity_implies_selection props.

Lemma call_onPlayEnd_preserves :
  preserves activity_implies_selection (call_onPlayEnd props).
Proof.
  unfold call_onPlayEnd. destruct (onPlayEnd props) as [f|] eqn:Hf.
  - preserves_frame. intros w Hw. by apply (proj1 parent_ok f).
  - preserves_frame.
Qed.

Lemma call_onError_preserves msg :
  preserves activity_implies_selection (call_onError props msg).
Proof.
  unfold call_onError. destruct (onError props) as [f|] eqn:Hf.
  - preserves_frame. intros w Hw. by apply (proj2 parent_ok f).
  - preserves_frame.
Qed.

Lemma handleEnded_preserves :
  preserves activity_implies_selection (handleEnded props).
Proof.
  unfold handleEnded. preserves_frame.
  - apply stopPlayback_preserves.
  - apply call_onPlayEnd_preserves.
Qed.

Lemma handleError_preserves :
  preserves activity_implies_selection (handleError props).
Proof.
  unfold handleError. preserves_frame;
    first [apply call_onError_preserves | apply stopPlayback_preserves].
Qed.

Lemma settle_preserves i res :
  preserves activity_implies_selection (settle props i res).
Proof.
  unfold settle. apply preserves_bind; [apply preserves_gets|].
  intros ps. destruct (ps !! i) as [[|]|]; [| |apply preserves_ret].
  - destruct res; unfold run_catch, playDetection_catch; preserves_frame.
  - destruct res; unfold run_catch, handleCanPlay_catch; preserves_frame.
    apply call_onError_preserves.
Qed.

Lemma step_preserves act w :
  activity_implies_selection w ->
  activity_implies_selection (step props act w).
Proof.
  unfold step. revert w. change (preserves activity_implies_selection (run props act)).
  destruct act; cbn [run].
  - apply playDetection_preserves.
  - apply stopPlayback_preserves.
  - apply registerAudioElement_preserves.
  - apply preserves_bind; [apply isDetectionPlaying_preserves|].
    intros ?. apply preserves_ret.
  - apply handleCanPlay_preserves.
  - apply handleEnded_preserves.
  - apply handleError_preserves.
  - apply effects_preserve.
  - apply effects_preserve.
  - apply effects_preserve.
  - preserves_frame.
  - apply settle_preserves.
  - preserves_frame.
Qed.

End Invariant.

Lemma reachable_exec props acts w :
  reachable props w -> reachable props (exec props acts w).
Proof.
  revert w. induction acts as [|act acts IH]; intros w Hw; [done|].
  apply IH. by constructor.
Qed.

Lemma noCallbacks_preserve P : callbacks_preserve P noCallbacks.
Proof. split; intros f Hf; discriminate Hf. Qed.

(** C1: as long as the parent's callbacks keep it, every step of the page
    (the store's [playDetection], [stopPlayback], [registerAudioElement]
    and [isDetectionPlaying], the component's handlers, effects and
    bindings, a promise settling, the user agent acting on an element)
    keeps the invariant that the activity flag is set only with a
    selection; so no state reachable from the initial one has activity
    without a selection. *)
Theorem activity_only_with_selection (props : Props) :
  callbacks_preserve activity_implies_selection props ->
  (∀ act w, activity_implies_selection w ->
            activity_implies_selection (step props act w))
  ∧ (∀ w, reachable props w ->
          isPlaying (store w) = true -> currentlyPlayingId (store w) ≠ None).
Proof.
  intros Hcb. split.
  - intros act w. by apply step_preserves.
  - intros w Hreach. induction Hreach as [|act w Hreach IH].
    + discriminate.
    + by apply step_preserves.
Qed.

(** In the page as mounted, detection 42 rendering is a reachable state
    with activity, and it has a selection. *)
Lemma activity_only_with_selection_witness :
  isPlaying (store rendering42) = true
  ∧ currentlyPlayingId (store rendering42) ≠ None.
Proof.
  split; [reflexivity|].
  apply (proj2 (activity_only_with_selection noCallbacks
                  (noCallbacks_preserve activity_implies_selection))
           rendering42).
  - unfold rendering42, loading42. do 2 apply reachable_exec. constructor.
  - reflexivity.
Defined.

(** * Further properties of the store and the component *)

(** X1: whichever branch [playDetection] takes, the row that was tapped is
    afterwards the only selected one: [handlePlay detection] returns with
    [detection.id] selected, [isDetectionPlaying] answers true for that id
    and false for every other, and no row of another detection is shown as
    playing. *)
Theorem handlePlay_selects_only_that_row
    (detection : Dashboard.DashboardDetection) (w : World) :
  ∃ w', Dashboard.handlePlay detection w = Normal tt w'
      ∧ currentlyPlayingId (store w') = Some (Dashboard.id detection)
      ∧ (∀ i, isDetectionPlaying i w'
              = Normal (bool_decide (i = Dashboard.id detection)) w')
      ∧ (∀ other, Dashboard.rowIsPlaying w' other = true ->
                  Dashboard.id other = Dashboard.id detection).
Proof.
  unfold Dashboard.handlePlay. set (i0 := Dashboard.id detection).
  assert (∃ w', playDetection i0 w = Normal tt w'
              ∧ currentlyPlayingId (store w') = Some i0)
    as (w' & Hrun & Hsel).
  { destruct (decide (currentlyPlayingId (store w) = Some i0)) as [Hs|Hs].
    - destruct (audioElement (store w)) as [h|] eqn:Hel.
      + destruct (playDetection_same_id i0 w h Hs Hel) as (w' & E & S & _).
        by exists w'.
      + eexists. split; [apply playDetection_new_selection; by right|done].
    - eexists. split; [apply playDetection_new_selection; by left|done]. }
  exists w'. split; [done|]. split; [done|]. split.
  - intros i. unfold isDetectionPlaying, bind, get_currentlyPlayingId, gets, ret.
    rewrite Hsel. f_equal. apply bool_decide_ext. split; congruence.
  - intros other. unfold Dashboard.rowIsPlaying. rewrite Hsel.
    intros [Hid _]%andb_prop. apply bool_decide_eq_true_1 in Hid. congruence.
Qed.

(** X2: [playDetection] never restarts or reloads a clip and never reaches
    beyond the registered element: the registered reference and the
    component's state are unchanged, every element other than the
    registered one is unchanged, the registered one keeps its playback
    position and its error, and at most one [play()] promise is created. *)
Theorem playDetection_frame (id : Z) (w : World) :
  ∃ w', playDetection id w = Normal tt w'
      ∧ audioElement (store w') = audioElement (store w)
      ∧ player w' = player w
      ∧ (∀ r, audioElement (store w) ≠ Some r ->
              elements w' !! r = elements w !! r)
      ∧ (∀ r, currentTime (deref (elements w') r)
                = currentTime (deref (elements w) r)
              ∧ error (deref (elements w') r) = error (deref (elements w) r))
      ∧ (promises w' = promises w ∨ promises w' = promises w ++ [ResumeCatch]).
Proof.
  assert (Hnew : currentlyPlayingId (store w) ≠ Some id
                 ∨ audioElement (store w) = None ->
    ∃ w', playDetection id w = Normal tt w'
      ∧ audioElement (store w') = audioElement (store w)
      ∧ player w' = player w
      ∧ (∀ r, audioElement (store w) ≠ Some r ->
              elements w' !! r = elements w !! r)
      ∧ (∀ r, currentTime (deref (elements w') r)
                = currentTime (deref (elements w) r)
              ∧ error (deref (elements w') r) = error (deref (elements w) r))
      ∧ (promises w' = promises w ∨ promises w' = promises w ++ [ResumeCatch])).
  { intros Hb. eexists. split; [by apply playDetection_new_selection|].
    cbn. repeat split; auto. }
  destruct (decide (currentlyPlayingId (store w) = Some id)) as [Hsel|Hsel];
    [|apply Hnew; by left].
  destruct (audioElement (store w)) as [h|] eqn:Hel; [|apply Hnew; by right].
  assert (Hframe : ∀ a r,
    currentTime a = currentTime (deref (elements w) h) ->
    error a = error (deref (elements w) h) ->
    currentTime (deref (<[h := a]> (elements w)) r)
      = currentTime (deref (elements w) r)
    ∧ error (deref (<[h := a]> (elements w)) r) = error (deref (elements w) r)).
  { intros a r Ht He. destruct (decide (h = r)) as [<-|Hne].
    - by rewrite deref_insert_eq.
    - by rewrite deref_insert_ne. }
  destruct (paused (deref (elements w) h)) eqn:Hp.
  - eexists. split; [by apply (playDetection_resume id w h)|]. cbn.
    split; [done|]. split; [done|]. split.
    + intros r Hr. rewrite lookup_insert_ne; [done|congruence].
    + split; [|by right]. intros r. by apply Hframe.
  - eexists. split; [by apply (playDetection_pause id w h)|]. cbn.
    split; [done|]. split; [done|]. split.
    + intros r Hr. rewrite lookup_insert_ne; [done|congruence].
    + split; [|by left]. intros r. by apply Hframe.
Qed.

(** X3: stopping twice is stopping once: a second [stopPlayback] changes
    neither the store, nor the component, nor any element, nor the pending
    promises (it only logs and repeats its two commands on the element). *)
Theorem stopPlayback_idempotent (w : World) :
  ∃ w1 w2, stopPlayback w = Normal tt w1
         ∧ stopPlayback w1 = Normal tt w2
         ∧ store w2 = store w1
         ∧ player w2 = player w1
         ∧ elements w2 = elements w1
         ∧ promises w2 = promises w1.
Proof.
  eexists. eexists. split; [apply stopPlayback_eq|].
  split; [apply stopPlayback_eq|]. cbn.
  repeat (split; [reflexivity|]). split; [|reflexivity].
  destruct (audioElement (store w)) as [h|]; [|reflexivity].
  by rewrite !deref_insert_eq, insert_insert_eq.
Qed.

(** X4: once the component is destroyed the store functions command no
    element: after [onDestroy], [playDetection] and [stopPlayback] leave all
    elements and pending promises as they are and only log. *)
Theorem after_onDestroy_no_element_command (id : Z) (w : World) :
  ∃ w0 w1 w2,
    onDestroy w = Normal tt w0
    ∧ playDetection id w0 = Normal tt w1
    ∧ stopPlayback w0 = Normal tt w2
    ∧ elements w1 = elements w ∧ promises w1 = promises w
    ∧ trace w1 = trace w ++ [EvLog "mobile-audio" Debug "Playing detection"]
    ∧ elements w2 = elements w ∧ promises w2 = promises w
    ∧ trace w2 = trace w ++ [EvLog "mobile-audio" Debug "Stopping playback"].
Proof.
  eexists. eexists. eexists. split; [reflexivity|].
  split; [apply playDetection_new_selection; by right|].
  split; [apply stopPlayback_eq|]. done.
Qed.

(** X5: a [canplay] that arrives when nothing is selected, or when no
    element is bound, is ignored: [handleCanPlay] only clears [_isLoading];
    no [play()] is issued and the store is untouched. *)
Theorem handleCanPlay_stale_signal (w : World) :
  currentlyPlayingId (store w) = None ∨ audioRef (player w) = None ->
  ∃ w', handleCanPlay w = Normal tt w'
      ∧ store w' = store w
      ∧ elements w' = elements w
      ∧ promises w' = promises w
      ∧ trace w' = trace w
      ∧ audioRef (player w') = audioRef (player w)
      ∧ _error (player w') = _error (player w)
      ∧ _isLoading (player w') = false.
Proof.
  intros Hstale. unfold_player. unfold_prims. unfold_world.
  destruct (audioRef (player w)) as [r|] eqn:Href,
           (currentlyPlayingId (store w)) as [i|] eqn:Hsel; cbn.
  - by destruct Hstale.
  - eexists. split; [reflexivity|]. by cbn.
  - eexists. split; [reflexivity|]. by cbn.
  - eexists. split; [reflexivity|]. by cbn.
Qed.

(** The end of a clip, with the component already unbound: the late
    [canplay] changes nothing but the loading flag. *)
Lemma handleCanPlay_stale_signal_witness :
  ∃ w', handleCanPlay (step noCallbacks CallStopPlayback rendering42)
        = Normal tt w'
      ∧ store w' = store (step noCallbacks CallStopPlayback rendering42)
      ∧ elements w' = elements (step noCallbacks CallStopPlayback rendering42)
      ∧ promises w' = promises (step noCallbacks CallStopPlayback rendering42)
      ∧ trace w' = trace (step noCallbacks CallStopPlayback rendering42)
      ∧ audioRef (player w')
        = audioRef (player (step noCallbacks CallStopPlayback rendering42))
      ∧ _error (player w')
        = _error (player (step noCallbacks CallStopPlayback rendering42))
      ∧ _isLoading (player w') = false.
Proof.
  apply (handleCanPlay_stale_signal
           (step noCallbacks CallStopPlayback rendering42)).
  left. reflexivity.
Defined.

(** X6: without an error callback [handleError] always ends idle, whatever
    the state and whichever detection was selected; it records one message,
    which is "Failed to load audio" whenever no element is bound or the
    bound element carries no [MediaError]. *)
Theorem handleError_always_idle (props : Props) (w : World) :
  onError props = None ->
  ∃ msg w', handleError props w = Normal tt w'
      ∧ currentlyPlayingId (store w') = None
      ∧ isPlaying (store w') = false
      ∧ _error (player w') = Some msg
      ∧ _isLoading (player w') = false
      ∧ (audioRef (player w) = None
         ∨ (∃ h, audioRef (player w) = Some h
                 ∧ error (deref (elements w) h) = None) ->
         msg = "Failed to load audio").
Proof.
  intros Hnone. rewrite handleError_eq.
  set (msg := errorMessage _). exists msg.
  unfold bind at 1, call_onError. rewrite Hnone. cbn [ret].
  eexists. split; [apply stopPlayback_eq|]. cbn.
  do 4 (split; [reflexivity|]).
  subst msg. intros [Href | (h & Href & Herr)]; rewrite Href; [done|].
  by rewrite Herr.
Qed.

(** An error event that arrives while the element is reloading for
    detection 42 (so that its error is already reset) still stops 42. *)
Lemma handleError_always_idle_witness :
  ∃ msg w', handleError noCallbacks loading42 = Normal tt w'
      ∧ currentlyPlayingId (store w') = None
      ∧ isPlaying (store w') = false
      ∧ _error (player w') = Some msg
      ∧ _isLoading (player w') = false
      ∧ (audioRef (player loading42) = None
         ∨ (∃ h, audioRef (player loading42) = Some h
                 ∧ error (deref (elements loading42) h) = None) ->
         msg = "Failed to load audio").
Proof.
  apply (handleError_always_idle noCallbacks loading42). reflexivity.
Defined.

(** X7: the clip and spectrogram addresses identify the detection: the
    component's [audioUrl] is empty exactly when nothing is selected, two
    states with the same [audioUrl] have the same selection, and two rows
    with the same [spectrogramUrl] show the same detection id. *)
Theorem clip_urls_identify_detection :
  (∀ w, audioUrl w = "" ↔ currentlyPlayingId (store w) = None)
  ∧ (∀ w1 w2, audioUrl w1 = audioUrl w2 ->
              currentlyPlayingId (store w1) = currentlyPlayingId (store w2))
  ∧ (∀ a b, DetectionRow.spectrogramUrl a = DetectionRow.spectrogramUrl b ->
            a = b).
Proof.
  unfold audioUrl, DetectionRow.spectrogramUrl, numberToString.
  split; [|split].
  - intros w. destruct (currentlyPlayingId (store w)); cbn; split; done.
  - intros w1 w2.
    destruct (currentlyPlayingId (store w1)),
             (currentlyPlayingId (store w2)); cbn; try done.
    intros [= Heq]. f_equal. by apply (inj pretty).
  - intros a b. cbn. intros [= Heq]. by apply (inj pretty).
Qed.

(** X8: the way to sound.  From a state in which [id] is not yet the
    selection handled by a registered element, a tap on the row, the
    mounting of element [r] (binding, registration, reload) and the
    [canplay] signal leave [id] selected and active on the registered
    element [r], which is rendering from the start of the clip, provided the
    user agent lets [r] play. *)
Theorem tap_mount_canplay_renders
    (props : Props) (id : Z) (r : nat) (w : World) :
  currentlyPlayingId (store w) ≠ Some id ∨ audioElement (store w) = None ->
  allowedToPlay (deref (elements w) r) = true ->
  let w' := exec props (CallPlayDetection id :: mount r ++ [OnCanPlay]) w in
  currentlyPlayingId (store w') = Some id
  ∧ isPlaying (store w') = true
  ∧ audioElement (store w') = Some r
  ∧ audioRef (player w') = Some r
  ∧ paused (deref (elements w') r) = false
  ∧ currentTime (deref (elements w') r) = 0
  ∧ error (deref (elements w') r) = None
  ∧ promises w' = promises w ++ [StartCatch]
  ∧ audioUrl w' = "/api/v2/audio/" +:+ numberToString id.
Proof.
  intros Hnew Hallowed. unfold exec, mount. cbn [app foldl].
  pose proof (playDetection_new_selection id w Hnew) as E1.
  match type of E1 with
  | _ = Normal tt ?w1 =>
      assert (Hs : step props (CallPlayDetection id) w = w1)
        by (unfold step; cbn [run]; by rewrite E1)
  end.
  rewrite Hs. clear Hs E1.
  unfold step, run. unfold_player. unfold_prims. unfold_world.
  rewrite !deref_insert_eq. cbn. rewrite Hallowed.
  done.
Qed.

(** From the initial page: a tap on detection 42 and the mounting of
    element 1. *)
Lemma tap_mount_canplay_renders_witness :
  let w' := exec noCallbacks (CallPlayDetection 42 :: mount 1 ++ [OnCanPlay])
              initialWorld in
  currentlyPlayingId (store w') = Some 42
  ∧ isPlaying (store w') = true
  ∧ audioElement (store w') = Some 1%nat
  ∧ audioRef (player w') = Some 1%nat
  ∧ paused (deref (elements w') 1) = false
  ∧ currentTime (deref (elements w') 1) = 0
  ∧ error (deref (elements w') 1) = None
  ∧ promises w' = promises initialWorld ++ [StartCatch]
  ∧ audioUrl w' = "/api/v2/audio/" +:+ numberToString 42.
Proof.
  apply (tap_mount_canplay_renders noCallbacks 42 1%nat initialWorld).
  - left. discriminate.
  - reflexivity.
Defined.

(** * The detection row *)

Lemma split_field sep m rest :
  ¬ In sep (list_ascii_of_string m) ->
  DetectionRow.split sep (m +:+ String sep rest)
  = m :: DetectionRow.split sep rest.
Proof.
  induction m as [|c m IH]; intros Hfree.
  - change (EmptyString +:+ String sep rest) with (String sep rest).
    cbn -[Ascii.eqb]. by rewrite Ascii.eqb_refl.
  - change (String c m +:+ String sep rest)
      with (String c (m +:+ String sep rest)).
    cbn -[Ascii.eqb]. cbn in Hfree.
    destruct (Ascii.eqb_spec c sep) as [->|Hne].
    + exfalso. apply Hfree. by left.
    + rewrite IH; [done|]. intros Hin. apply Hfree. by right.
Qed.

(** X9: on a time in HH:MM:SS form, with HH from 00 to 23, [formatTime]
    shows the 12-hour clock: the hour is HH modulo 12 with 12 in place of 0
    (so between 1 and 12, without leading zero), the minutes are copied,
    and the suffix is AM before noon and PM from 12 on. *)
Theorem formatTime_twelve_hour_clock (h : nat) (mm ss : string) :
  (h < 24)%nat ->
  ¬ In ":"%char (list_ascii_of_string mm) ->
  DetectionRow.formatTime
    (DetectionRow.twoDigits h +:+ ":" +:+ mm +:+ ":" +:+ ss)
  = Some (pretty (DetectionRow.clockHour h) +:+ ":" +:+ mm +:+ " "
          +:+ (if (h <? 12)%nat then "AM" else "PM"))
  ∧ (1 <= DetectionRow.clockHour h <= 12)%nat.
Proof.
  intros Hh Hmm. unfold DetectionRow.formatTime.
  do 24 (destruct h as [|h];
    [ split; [|vm_compute; lia];
      match goal with
      | |- context [DetectionRow.twoDigits ?k] =>
          let hh := eval vm_compute in (DetectionRow.twoDigits k) in
          change (DetectionRow.twoDigits k) with hh
      end;
      rewrite (split_field ":" _ (mm +:+ ":" +:+ ss))
        by (cbn; intros [?|[?|[]]]; discriminate);
      change (":" +:+ ss) with (String ":" ss);
      rewrite (split_field ":" mm ss) by exact Hmm;
      vm_compute; reflexivity
    | ]).
  lia.
Qed.

(** 13:07:59 is shown as 1:07 PM. *)
Lemma formatTime_twelve_hour_clock_witness :
  DetectionRow.formatTime
    (DetectionRow.twoDigits 13 +:+ ":" +:+ "07" +:+ ":" +:+ "59")
  = Some (pretty (DetectionRow.clockHour 13) +:+ ":" +:+ "07" +:+ " "
          +:+ (if (13 <? 12)%nat then "AM" else "PM"))
  ∧ (1 <= DetectionRow.clockHour 13 <= 12)%nat.
Proof.
  apply (formatTime_twelve_hour_clock 13 "07" "59"); [lia|].
  cbn. intros [?|[?|[]]]; discriminate.
Defined.

(** * The dashboard page *)

Lemma map_toDashboardDetection l :
  map Dashboard.toDashboardDetection l = l.
Proof.
  induction l as [|[] l IH]; [done|]. cbn. by rewrite IH.
Qed.

Lemma lookup_map {A B} (f : A -> B) (l : list A) (n : nat) :
  map f l !! n = f <$> (l !! n).
Proof.
  revert n. induction l as [|a l IH]; intros [|n]; cbn; done.
Qed.

(** X10: page requests are single-flight.  Once [loadDetections] has sent a
    request, the scroll sentinel triggers no further one until it is
    answered; and while a load-more is in flight every entry point
    ([loadDetections] with either argument, [loadMore]) returns without
    sending anything or changing the state. *)
Theorem page_requests_single_flight
    (today : string) (append : bool) (s s1 : Dashboard.State)
    (req : Dashboard.DetectionsRequest) :
  Dashboard.loadDetections_start today append s = (s1, Some req) ->
  (∀ visible, Dashboard.onIntersect today visible s1 = (s1, None))
  ∧ (append = true ->
     (∀ again, Dashboard.loadDetections_start today again s1 = (s1, None))
     ∧ Dashboard.loadMore today s1 = (s1, None)).
Proof.
  unfold Dashboard.loadDetections_start.
  destruct (Dashboard.loadingMore s) eqn:Hlm; [discriminate|].
  intros [= <- _]. split.
  - intros visible. unfold Dashboard.onIntersect.
    destruct append; cbn; by rewrite ?Hlm, ?andb_false_r.
  - intros ->. cbn. split; [done|].
    unfold Dashboard.loadMore. cbn. by rewrite andb_false_r.
Qed.

(** The first page of the sample day is shown and a load-more has just
    been sent. *)
Lemma page_requests_single_flight_witness :
  (∀ visible,
     Dashboard.onIntersect "2024-05-01" visible
       (fst (Dashboard.loadMore "2024-05-01" (showing sampleDay 20)))
     = (fst (Dashboard.loadMore "2024-05-01" (showing sampleDay 20)), None))
  ∧ (true = true ->
     (∀ again,
        Dashboard.loadDetections_start "2024-05-01" again
          (fst (Dashboard.loadMore "2024-05-01" (showing sampleDay 20)))
        = (fst (Dashboard.loadMore "2024-05-01" (showing sampleDay 20)), None))
     ∧ Dashboard.loadMore "2024-05-01"
         (fst (Dashboard.loadMore "2024-05-01" (showing sampleDay 20)))
       = (fst (Dashboard.loadMore "2024-05-01" (showing sampleDay 20)), None)).
Proof.
  apply (page_requests_single_flight "2024-05-01" true (showing sampleDay 20)
           (fst (Dashboard.loadMore "2024-05-01" (showing sampleDay 20)))
           {| Dashboard.start_date := "2024-05-01";
              Dashboard.end_date := "2024-05-01";
              Dashboard.numResults := 20; Dashboard.offset := 20 |}).
  reflexivity.
Defined.

(** X11: a call of [loadDetections] whose request fails always ends with
    both loading flags cleared, the failure logged and an error text set:
    the thrown error's message (or "Failed to load detections" for a thrown
    non-error) when the request is rejected or the body does not parse, and
    "Failed to fetch detections: " followed by the status text when the
    response is not ok.  The total is the one of before.  A failed
    load-more keeps the rows already loaded; a failed first load or reload
    leaves no rows, since they are cleared before the request is sent. *)
Theorem loadDetections_failure_outcome
    (today : string) (append : bool) (s : Dashboard.State) :
  Dashboard.loadingMore s = false ->
  (∀ e, pageLoadFailed append
          (Dashboard.errorText "Failed to load detections" e) s
          (loadDetectionsRun today append (Dashboard.FetchRejected e) s))
  ∧ (∀ statusText body,
       pageLoadFailed append ("Failed to fetch detections: " +:+ statusText) s
         (loadDetectionsRun today append
            (Dashboard.FetchResponded false statusText body) s))
  ∧ (∀ statusText e,
       pageLoadFailed append
         (Dashboard.errorText "Failed to load detections" e) s
         (loadDetectionsRun today append
            (Dashboard.FetchResponded true statusText (inl e)) s)).
Proof.
  intros Hlm.
  unfold loadDetectionsRun, Dashboard.loadDetections_start, pageLoadFailed.
  rewrite Hlm. destruct append; repeat split.
Qed.

(** With the first 20 rows of the sample day shown, a reload that is
    answered with status 503 ends with no rows, and a load-more answered
    the same way ends with the 20 rows. *)
Lemma loadDetections_failure_outcome_witness :
  Dashboard.detections
    (loadDetectionsRun "2024-05-01" false
       (Dashboard.FetchResponded false "Service Unavailable" (inl Dashboard.NonError))
       (showing sampleDay 20)) = []
  ∧ Dashboard.detections
      (loadDetectionsRun "2024-05-01" true
         (Dashboard.FetchResponded false "Service Unavailable"
            (inl Dashboard.NonError))
         (showing sampleDay 20)) = take 20 sampleDay
  ∧ Dashboard.detectionsError
      (loadDetectionsRun "2024-05-01" false
         (Dashboard.FetchResponded false "Service Unavailable"
            (inl Dashboard.NonError))
         (showing sampleDay 20))
    = Some "Failed to fetch detections: Service Unavailable".
Proof.
  pose proof (loadDetections_failure_outcome "2024-05-01" false
                (showing sampleDay 20) eq_refl) as (_ & Hreload & _).
  pose proof (loadDetections_failure_outcome "2024-05-01" true
                (showing sampleDay 20) eq_refl) as (_ & Hmore & _).
  specialize (Hreload "Service Unavailable" (inl Dashboard.NonError)).
  specialize (Hmore "Service Unavailable" (inl Dashboard.NonError)).
  destruct Hreload as (Hrows0 & _ & _ & _ & Herr & _).
  destruct Hmore as (Hrows20 & _).
  split; [exact Hrows0|]. split; [exact Hrows20|]. exact Herr.
Defined.

(** X12: a call of [loadDetections] that succeeds.  A load-more keeps the
    rows shown, in order, puts the new page after them and leaves the error
    text as it was; a first load or reload shows exactly the page and
    clears the error text.  Either way the total is the one the server
    reports, both loading flags are cleared and nothing is logged. *)
Theorem loadDetections_success (today : string) (append : bool)
    (s : Dashboard.State) (statusText : string)
    (result : Dashboard.DetectionsResponse) :
  Dashboard.loadingMore s = false ->
  let s' := loadDetectionsRun today append
              (Dashboard.FetchResponded true statusText (inr result)) s in
  Dashboard.detections s'
    = (if append then Dashboard.detections s ++ Dashboard.data result
       else Dashboard.data result)
  ∧ Dashboard.totalDetections s' = Dashboard.total result
  ∧ Dashboard.detectionsLoading s' = false
  ∧ Dashboard.loadingMore s' = false
  ∧ Dashboard.detectionsError s'
    = (if append then Dashboard.detectionsError s else None)
  ∧ Dashboard.log s' = Dashboard.log s.
Proof.
  intros Hlm. unfold loadDetectionsRun, Dashboard.loadDetections_start.
  rewrite Hlm. destruct append; cbn; by rewrite map_toDashboardDetection.
Qed.

(** After a failed load-more from 20 rows (its error text still set), a
    reload answered with the first page shows that page and no error. *)
Lemma loadDetections_success_witness :
  let failed :=
    loadDetectionsRun "2024-05-01" true
      (Dashboard.FetchResponded false "Service Unavailable"
         (inl Dashboard.NonError))
      (showing sampleDay 20) in
  let s' :=
    loadDetectionsRun "2024-05-01" false
      (Dashboard.FetchResponded true "OK"
         (inr {| Dashboard.data := take 20 sampleDay;
                 Dashboard.total := 45 |})) failed in
  Dashboard.detectionsError failed
    = Some "Failed to fetch detections: Service Unavailable"
  ∧ Dashboard.detections s' = take 20 sampleDay
  ∧ Dashboard.totalDetections s' = 45
  ∧ Dashboard.detectionsLoading s' = false
  ∧ Dashboard.loadingMore s' = false
  ∧ Dashboard.detectionsError s' = None
  ∧ Dashboard.log s'
    = [Dashboard.LogError "Failed to load detections"].
Proof.
  split; [reflexivity|].
  apply (loadDetections_success "2024-05-01" false
           (loadDetectionsRun "2024-05-01" true
              (Dashboard.FetchResponded false "Service Unavailable"
                 (inl Dashboard.NonError))
              (showing sampleDay 20))
           "OK"
           {| Dashboard.data := take 20 sampleDay; Dashboard.total := 45 |}
           eq_refl).
Defined.

Lemma scroll_showing today db n :
  Dashboard.scroll today db (showing db n)
  = showing db (if (n <? length db)%nat then n + 20 else n).
Proof.
  unfold Dashboard.scroll, Dashboard.onIntersect, Dashboard.loadMore,
    Dashboard.hasMore.
  cbn [showing Dashboard.set_detectionsPart Dashboard.detections
       Dashboard.totalDetections Dashboard.loadingMore
       Dashboard.detectionsLoading negb andb].
  destruct (Nat.ltb_spec n (length db)) as [Hlt|Hge].
  - rewrite length_take_le by lia.
    replace (Z.of_nat n <? Z.of_nat (length db))%Z
      with true by (symmetry; apply Z.ltb_lt; lia).
    cbn. rewrite map_toDashboardDetection, length_take_le by lia.
    unfold Dashboard.PAGE_SIZE. by rewrite take_take_drop.
  - rewrite length_take_ge by lia.
    by rewrite Z.ltb_irrefl.
Qed.

(** X13: infinite scroll against a server that pages a fixed list.  After
    the first page and [n] further arrivals of the sentinel in view, the
    page shows exactly the first 20 * (n + 1) detections of the day, in the
    server's order and without repetition, with nothing loading and no
    error; once the whole day is shown, further scrolling changes
    nothing. *)
Theorem scrolling_loads_the_day
    (today : string) (db : list Dashboard.DashboardDetection) (n : nat) :
  Nat.iter n (Dashboard.scroll today db) (Dashboard.firstPage today db)
  = showing db (20 * (n + 1))
  ∧ (length db <= 20 * (n + 1) ->
     Dashboard.detections (showing db (20 * (n + 1))) = db
     ∧ Dashboard.hasMore (showing db (20 * (n + 1))) = false
     ∧ Dashboard.scroll today db (showing db (20 * (n + 1)))
       = showing db (20 * (n + 1)))%nat.
Proof.
  split.
  - induction n as [|n IH].
    + cbn. unfold Dashboard.firstPage. cbn.
      rewrite map_toDashboardDetection. by rewrite drop_0.
    + rewrite Nat.iter_succ, IH, scroll_showing.
      destruct (Nat.ltb_spec (20 * (n + 1)) (length db)) as [Hlt|Hge].
      * f_equal. lia.
      * unfold showing. by rewrite !take_ge by lia.
  - intros Hall. split; [|split].
    + cbn. by apply take_ge.
    + unfold Dashboard.hasMore. cbn. rewrite take_ge by done.
      apply Z.ltb_irrefl.
    + rewrite scroll_showing.
      by replace (20 * (n + 1) <? length db)%nat with false
        by (symmetry; apply Nat.ltb_ge; lia).
Qed.

Lemma map_review_reviewed i v ds :
  reviewed i v ds
    (map (fun d => if (Dashboard.id d =? i)%Z
                   then Dashboard.withVerified v d else d) ds).
Proof.
  split.
  - induction ds as [|d ds IH]; [done|]. cbn. rewrite IH. f_equal.
    by destruct (Dashboard.id d =? i)%Z.
  - intros n d Hd. by rewrite lookup_map, Hd.
Qed.

(** X14: a review touches only the verdict of the reviewed detection.
    When the request succeeds, [handleVerify] marks every loaded row of
    that detection "correct" and [handleDismiss] marks it
    "false_positive"; all other rows, the number of rows, their order and
    their ids are unchanged, so [hasMore] and the next page offset are not
    affected.  When the request fails the rows are left as they are. *)
Theorem review_marks_only_that_detection
    (detection : Dashboard.DashboardDetection) (s : Dashboard.State) :
  reviewed (Dashboard.id detection) "correct" (Dashboard.detections s)
    (Dashboard.detections (Dashboard.handleVerify_resume detection None s))
  ∧ reviewed (Dashboard.id detection) "false_positive" (Dashboard.detections s)
      (Dashboard.detections (Dashboard.handleDismiss_resume detection None s))
  ∧ Dashboard.hasMore (Dashboard.handleVerify_resume detection None s)
    = Dashboard.hasMore s
  ∧ Dashboard.hasMore (Dashboard.handleDismiss_resume detection None s)
    = Dashboard.hasMore s
  ∧ (∀ e,
       Dashboard.detections (Dashboard.handleVerify_resume detection (Some e) s)
       = Dashboard.detections s
       ∧ Dashboard.detections
           (Dashboard.handleDismiss_resume detection (Some e) s)
         = Dashboard.detections s)
  ∧ (∀ d, In d (Dashboard.detections
                  (Dashboard.handleVerify_resume detection None s)) ->
          Dashboard.id d = Dashboard.id detection ->
          Dashboard.verified d = Some "correct")
  ∧ (∀ d, In d (Dashboard.detections
                  (Dashboard.handleDismiss_resume detection None s)) ->
          Dashboard.id d = Dashboard.id detection ->
          Dashboard.verified d = Some "false_positive").
Proof.
  split; [apply map_review_reviewed|].
  split; [apply map_review_reviewed|].
  unfold Dashboard.hasMore. cbn. rewrite !length_map.
  do 3 (split; [done|]).
  split; intros d Hin Hid; apply in_map_iff in Hin as (d0 & <- & _);
    destruct (Dashboard.id d0 =? Dashboard.id detection)%Z eqn:Heq;
    try reflexivity; apply Z.eqb_neq in Heq; done.
Qed.

Lemma fold_counts_from (data : list Dashboard.DailySpecies) (a : Z) :
  fold_left (fun sum species => sum + Dashboard.count species) data a
  = a + fold_left (fun sum species => sum + Dashboard.count species) data 0.
Proof.
  revert a. induction data as [|sp data IH]; intros a; cbn; [lia|].
  rewrite (IH (a + Dashboard.count sp)), (IH (0 + Dashboard.count sp)). lia.
Qed.

(** X15: the summary card is consistent when every species of the daily
    summary has at least one detection: the number of species does not
    exceed the total, no single species count exceeds the total, and a top
    species is named exactly when there is at least one species (it is the
    first of the list). *)
Theorem summarize_consistent (data : list Dashboard.DailySpecies) :
  (∀ species, In species data -> 1 <= Dashboard.count species) ->
  Z.of_nat (Dashboard.uniqueSpecies (Dashboard.summarize data))
    <= Dashboard.summaryTotalDetections (Dashboard.summarize data)
  ∧ (∀ species, In species data ->
       Dashboard.count species
       <= Dashboard.summaryTotalDetections (Dashboard.summarize data))
  ∧ (Dashboard.topSpecies (Dashboard.summarize data) = None
     ↔ Dashboard.uniqueSpecies (Dashboard.summarize data) = 0%nat)
  ∧ Dashboard.topSpecies (Dashboard.summarize data)
    = Dashboard.common_name <$> head data.
Proof.
  intros Hpos. unfold Dashboard.summarize. cbn.
  assert (Hsum : ∀ l : list Dashboard.DailySpecies,
    (∀ species, In species l -> 1 <= Dashboard.count species) ->
    Z.of_nat (length l)
      <= fold_left (fun sum species => sum + Dashboard.count species) l 0
    ∧ ∀ species, In species l ->
        Dashboard.count species
        <= fold_left (fun sum species => sum + Dashboard.count species) l 0).
  { induction l as [|sp l IH]; intros Hl; cbn.
    - split; [lia|]. by intros ? [].
    - rewrite fold_counts_from.
      destruct IH as [IHlen IHeach].
      { intros species Hin. apply Hl. by right. }
      pose proof (Hl sp (or_introl eq_refl)) as Hsp.
      split; [lia|]. intros species [<-|Hin]; [lia|].
      specialize (IHeach species Hin). lia. }
  destruct (Hsum data Hpos) as [Hlen Heach].
  split; [exact Hlen|]. split; [exact Heach|].
  destruct data; cbn; split; done.
Qed.

(** A day with five robins and two wrens. *)
Lemma summarize_consistent_witness :
  let data := [Dashboard.mkDaily "European Robin" 5;
               Dashboard.mkDaily "Eurasian Wren" 2] in
  Z.of_nat (Dashboard.uniqueSpecies (Dashboard.summarize data))
    <= Dashboard.summaryTotalDetections (Dashboard.summarize data)
  ∧ (∀ species, In species data ->
       Dashboard.count species
       <= Dashboard.summaryTotalDetections (Dashboard.summarize data))
  ∧ (Dashboard.topSpecies (Dashboard.summarize data) = None
     ↔ Dashboard.uniqueSpecies (Dashboard.summarize data) = 0%nat)
  ∧ Dashboard.topSpecies (Dashboard.summarize data)
    = Dashboard.common_name <$> head data.
Proof.
  apply (summarize_consistent
           [Dashboard.mkDaily "European Robin" 5;
            Dashboard.mkDaily "Eurasian Wren" 2]).
  intros species [<-|[<-|[]]]; cbn; lia.
Defined.

(** X16: a run of [loadSummary] always ends with the loading flag cleared.
    On success the card shows the figures of the response and no error (an
    empty response gives 0 detections, 0 species and no top species).  On
    failure the figures shown before are kept and the error text is the
    thrown error's message, "Failed to load summary" for a thrown
    non-error, or "Failed to fetch summary: " followed by the status text
    for a response that is not ok. *)
Theorem loadSummary_outcome (s : Dashboard.State) :
  let run r := Dashboard.loadSummary_resume r (Dashboard.loadSummary_start s) in
  (∀ r, Dashboard.summaryLoading (run r) = false)
  ∧ (∀ statusText data,
       Dashboard.summary (run (Dashboard.FetchResponded true statusText (inr data)))
       = Some (Dashboard.summarize data)
       ∧ Dashboard.summaryError
           (run (Dashboard.FetchResponded true statusText (inr data))) = None)
  ∧ Dashboard.summarize []
    = {| Dashboard.summaryTotalDetections := 0; Dashboard.uniqueSpecies := 0;
         Dashboard.topSpecies := None |}
  ∧ (∀ e,
       Dashboard.summary (run (Dashboard.FetchRejected e)) = Dashboard.summary s
       ∧ Dashboard.summaryError (run (Dashboard.FetchRejected e))
         = Some (Dashboard.errorText "Failed to load summary" e))
  ∧ (∀ statusText body,
       Dashboard.summary (run (Dashboard.FetchResponded false statusText body))
       = Dashboard.summary s
       ∧ Dashboard.summaryError
           (run (Dashboard.FetchResponded false statusText body))
         = Some ("Failed to fetch summary: " +:+ statusText))
  ∧ (∀ statusText e,
       Dashboard.summary
         (run (Dashboard.FetchResponded true statusText (inl e)))
       = Dashboard.summary s
       ∧ Dashboard.summaryError
           (run (Dashboard.FetchResponded true statusText (inl e)))
         = Some (Dashboard.errorText "Failed to load summary" e)).
Proof.
  cbn. split; [|done].
  intros r. unfold Dashboard.loadSummary_resume.
  by destruct (Dashboard.awaited _ r).
Qed.

(** X17: the rows form an accordion.  A tap on row [i] expands it unless it
    was the expanded one, in which case nothing is expanded; a tap on [i]
    followed by a tap on another row [j] leaves exactly [j] expanded,
    whatever was expanded before; and the loaded rows, the total and the
    loading flags are never touched. *)
Theorem toggleExpanded_accordion (i j : Z) (s : Dashboard.State) :
  Dashboard.expandedId (Dashboard.toggleExpanded i s)
    = (if bool_decide (Dashboard.expandedId s = Some i) then None else Some i)
  ∧ (i ≠ j ->
     Dashboard.expandedId
       (Dashboard.toggleExpanded j (Dashboard.toggleExpanded i s)) = Some j)
  ∧ Dashboard.detections (Dashboard.toggleExpanded i s) = Dashboard.detections s
  ∧ Dashboard.hasMore (Dashboard.toggleExpanded i s) = Dashboard.hasMore s
  ∧ Dashboard.loadingMore (Dashboard.toggleExpanded i s) = Dashboard.loadingMore s
  ∧ Dashboard.detectionsLoading (Dashboard.toggleExpanded i s)
    = Dashboard.detectionsLoading s.
Proof.
  split; [reflexivity|]. split; [|done].
  intros Hne. cbn.
  destruct (bool_decide (Dashboard.expandedId s = Some i)).
  - by rewrite bool_decide_eq_false_2.
  - rewrite bool_decide_eq_false_2; [done|]. congruence.
Qed.

(** Row 3 is expanded; a tap on row 3 and then on row 5. *)
Lemma toggleExpanded_accordion_witness :
  let s := Dashboard.toggleExpanded 3 Dashboard.initialState in
  Dashboard.expandedId (Dashboard.toggleExpanded 3 s)
    = (if bool_decide (Dashboard.expandedId s = Some 3) then None else Some 3)
  ∧ (3 ≠ 5 ->
     Dashboard.expandedId
       (Dashboard.toggleExpanded 5 (Dashboard.toggleExpanded 3 s)) = Some 5)
  ∧ Dashboard.detections (Dashboard.toggleExpanded 3 s) = Dashboard.detections s
  ∧ Dashboard.hasMore (Dashboard.toggleExpanded 3 s) = Dashboard.hasMore s
  ∧ Dashboard.loadingMore (Dashboard.toggleExpanded 3 s)
    = Dashboard.loadingMore s
  ∧ Dashboard.detectionsLoading (Dashboard.toggleExpanded 3 s)
    = Dashboard.detectionsLoading s.
Proof.
  apply (toggleExpanded_accordion 3 5
           (Dashboard.toggleExpanded 3 Dashboard.initialState)).
Defined.
